(** * NoiseReducer: a shallow embedding of [noise.py]

    The development follows the class [NoiseReducer]: its fields become a
    record, its methods become state transformers, and the audio device
    (the PortAudio stream that calls [callback] from its own thread) becomes
    an explicit schedule of chunk deliveries.

    Numbers.  Python floats and NumPy floating-point arrays are modelled by
    real numbers: every operation is the exact one, rounding, infinities and
    NaN are not represented.  Sizes, counts and 16-bit samples are integers. *)

From Stdlib Require Import String.

From Stdlib Require Import Reals Lra Lia ZArith Bool Arith List.

Import ListNotations.

Local Open Scope R_scope.

(** ** Exceptions and results *)

(** The exceptions the modelled code can raise.  [SessionBusyError] and
    [CalibrationFailed] are the error names of the specification; they are
    part of the type so that statements about them can be written, and no
    definition below constructs them. *)
Inductive exn : Type :=
  | ZeroDivisionError
  | ValueError
  | SessionBusyError
  | CalibrationFailed.

Inductive result (A : Type) : Type :=
  | Ok (a : A)
  | Err (e : exn).

Arguments Ok {A} a.

Arguments Err {A} e.

Definition bind {A B : Type} (r : result A) (k : A -> result B) : result B :=
  match r with
  | Ok a => k a
  | Err e => Err e
  end.

Notation "x <- c ;; k" := (bind c (fun x => k))
  (at level 61, c at next level, right associativity).

(** ** Conversions between floats and integers *)

(** [int(x)] on a float, and [astype] to an integer type: the fractional part
    is dropped, rounding toward zero. *)
Definition trunc (x : R) : Z :=
  if Rle_dec 0 x then Zfloor x else Zceil x.

(** A 16-bit signed integer as [Z], with its wrap-around written out. *)
Definition wrap16 (z : Z) : Z := ((z + 32768) mod 65536 - 32768)%Z.

(** ** NumPy and SciPy operations used by the pipeline *)

Module Np.

(** A one-dimensional float array. *)
Definition array := list R.

(** A complex number as (real part, imaginary part). *)
Definition complex := (R * R)%type.

Definition sum_list (l : list R) : R := fold_right Rplus 0 l.

(** Element-wise binary operation with NumPy's broadcasting of
    one-dimensional operands: equal lengths pair up, a length-one operand
    is stretched, anything else is a [ValueError]. *)
Definition broadcast2 {A B C : Type} (f : A -> B -> C)
    (xs : list A) (ys : list B) : result (list C) :=
  if (length xs =? length ys)%nat then
    Ok (map (fun p => f (fst p) (snd p)) (combine xs ys))
  else
    match xs, ys with
    | [x], _ => Ok (map (f x) ys)
    | _, [y] => Ok (map (fun x => f x y) xs)
    | _, _ => Err ValueError
    end.

(** [np.maximum(a, s)] with a scalar [s]. *)
Definition maximum (a : array) (s : R) : array :=
  map (fun x => Rmax x s) a.

(** [np.clip(a, lo, hi)] is [minimum(maximum(a, lo), hi)]. *)
Definition clip (a : array) (lo hi : R) : array :=
  map (fun x => Rmin (Rmax x lo) hi) a.

(** [np.abs] on a complex array. *)
Definition cabs (z : complex) : R :=
  sqrt (fst z * fst z + snd z * snd z).

Definition abs (a : list complex) : array := map cabs a.

(** [np.angle]: the argument [atan2(im, re)], with [angle(0) = 0]. *)
Definition atan2 (y x : R) : R :=
  if Rlt_dec 0 x then atan (y / x)
  else if Rlt_dec x 0 then
    (if Rle_dec 0 y then atan (y / x) + PI else atan (y / x) - PI)
  else if Rlt_dec 0 y then PI / 2
  else if Rlt_dec y 0 then - (PI / 2)
  else 0.

Definition angle (a : list complex) : array :=
  map (fun z => atan2 (snd z) (fst z)) a.

(** [np.exp(1j * theta)]. *)
Definition expj (theta : array) : list complex :=
  map (fun t => (cos t, sin t)) theta.

(** A real times a complex number. *)
Definition scale (m : R) (z : complex) : complex :=
  (m * fst z, m * snd z).

(** [np.fft.rfft]: the half spectrum of a real signal of length [N],
    [N / 2 + 1] bins; an empty input is rejected. *)
Definition rfft_bin (x : array) (k : nat) : complex :=
  let N := length x in
  let w := fun n => 2 * PI * INR k * INR n / INR N in
  let terms := combine (seq 0 N) x in
  (sum_list (map (fun p => snd p * cos (w (fst p))) terms),
   - sum_list (map (fun p => snd p * sin (w (fst p))) terms)).

Definition rfft (x : array) : result (list complex) :=
  match x with
  | [] => Err ValueError
  | _ => Ok (map (rfft_bin x) (seq 0 (length x / 2 + 1)))
  end.

(** [np.fft.irfft] with the default output length [n = 2 * (m - 1)] for
    [m] input bins; [n < 1] is rejected.  The imaginary parts of the first
    and last bin are ignored, the inner bins count twice. *)
Definition irfft_sample (X : list complex) (n j : nat) : R :=
  let m := length X in
  let w := fun k => 2 * PI * INR j * INR k / INR n in
  let inner := combine (seq 1 (m - 2)) (firstn (m - 2) (tl X)) in
  (fst (hd (0, 0) X)
   + sum_list (map (fun p => 2 * (fst (snd p) * cos (w (fst p))
                                  - snd (snd p) * sin (w (fst p)))) inner)
   + fst (last X (0, 0)) * cos (PI * INR j)) / INR n.

Definition irfft (X : list complex) : result array :=
  let n := (2 * (length X - 1))%nat in
  if (n <? 1)%nat then Err ValueError
  else Ok (map (irfft_sample X n) (seq 0 n)).

(** [np.vstack] of one-dimensional arrays: one row per array; no rows, or
    rows of different lengths, are rejected. *)
Definition vstack (rows : list array) : result (list array) :=
  match rows with
  | [] => Err ValueError
  | r :: rs =>
      if forallb (fun r' => (length r' =? length r)%nat) rs
      then Ok rows else Err ValueError
  end.

(** [np.mean(m, axis=0)] of a matrix with at least one row: the rows are
    added up column by column and the sums divided by the row count. *)
Definition add_rows (acc row : array) : array :=
  map (fun p => fst p + snd p) (combine acc row).

Definition mean_axis0 (m : list array) : array :=
  match m with
  | [] => []
  | r :: rs =>
      map (fun s => s / INR (length m)) (fold_left add_rows rs r)
  end.

(** [np.concatenate] of one-dimensional arrays. *)
Definition concatenate (l : list array) : array := concat l.

(** [astype(np.int16)] on a float array: truncation toward zero; a value
    outside the 16-bit range is reduced modulo [2^16], as the cast does on
    the common platforms. *)
Definition astype_int16 (a : array) : list Z :=
  map (fun x => wrap16 (trunc x)) a.

(** [tobytes] of an int16 array: two bytes per sample, low byte first. *)
Definition int16_bytes (z : Z) : list Z :=
  [Z.land z 255; Z.land (Z.shiftr z 8) 255].

Definition tobytes (a : list Z) : list Z := flat_map int16_bytes a.

End Np.

Module Signal.

(** [scipy.signal.lfilter(b, a, x)] with zero initial state: the
    direct-form difference equation
    [a0 * y[n] = b0 * x[n] + ... + b_nb * x[n - nb]
                 - a1 * y[n - 1] - ... - a_na * y[n - na]].
    [xh] and [yh] hold the inputs and outputs already seen, most recent
    first.  The coefficients come from [butter], whose [a0] is [1];
    division is the one of the reals. *)
Fixpoint dot (c h : list R) : R :=
  match c, h with
  | c0 :: c', h0 :: h' => c0 * h0 + dot c' h'
  | _, _ => 0
  end.

Fixpoint lfilter_from (b a : list R) (xh yh : list R) (x : list R)
    : list R :=
  match x with
  | [] => []
  | xn :: x' =>
      let yn := (dot b (xn :: xh) - dot (tl a) yh) / hd 0 a in
      yn :: lfilter_from b a (xn :: xh) (yn :: yh) x'
  end.

Definition lfilter (b a : list R) (x : list R) : list R :=
  lfilter_from b a [] [] x.

End Signal.

(** ** The NoiseReducer object *)

(** The records written to the module's logger, named after their text:
    "Starting noise calibration..." (info), "Noise calibration completed"
    (info), "No audio chunks received during calibration" (warning),
    "Error in callback: ..." (error), "Starting recording to ..." (info),
    "Recording saved to ..." (info), "Actual recording duration: ..." (info),
    "No audio frames captured" (warning). *)
Inductive message : Type :=
  | StartingCalibration
  | CalibrationCompleted
  | NoChunksReceived
  | ErrorInCallback (e : exn)
  | StartingRecording (filename : string)
  | RecordingSaved (filename : string)
  | ActualDuration (seconds : R)
  | NoFramesCaptured.

(** What [record] hands to the [wave] module. *)
Record WaveFile : Type := mkWaveFile {
  nchannels : Z;
  sampwidth : Z;
  framerate : Z;
  frames : list Z          (* the bytes given to [writeframes] *)
}.

(** The fields of [self].  [log] and [files] are not fields of the Python
    object: they stand for the logger's output (oldest record first) and for
    the files written, and travel with the object so that every method is a
    function from one [NoiseReducer] to the next. *)
Record NoiseReducer : Type := mkNoiseReducer {
  mode : string;
  chunk_size : Z;
  sample_rate : Z;
  audio_queue : list Np.array;      (* queue.Queue(maxsize=100), head first *)
  output_frames : list Np.array;
  channels : Z;
  noise_profile : option Np.array;
  is_calibrating : bool;
  recording : bool;
  b : list R;
  a : list R;
  log : list message;
  files : list (string * WaveFile)
}.

Definition maxsize : nat := 100.

Definition set_mode (m : string) (s : NoiseReducer) : NoiseReducer :=
  mkNoiseReducer m (chunk_size s) (sample_rate s) (audio_queue s)
    (output_frames s) (channels s) (noise_profile s) (is_calibrating s)
    (recording s) (b s) (a s) (log s) (files s).

Definition set_audio_queue (q : list Np.array) (s : NoiseReducer)
    : NoiseReducer :=
  mkNoiseReducer (mode s) (chunk_size s) (sample_rate s) q
    (output_frames s) (channels s) (noise_profile s) (is_calibrating s)
    (recording s) (b s) (a s) (log s) (files s).

Definition set_output_frames (o : list Np.array) (s : NoiseReducer)
    : NoiseReducer :=
  mkNoiseReducer (mode s) (chunk_size s) (sample_rate s) (audio_queue s)
    o (channels s) (noise_profile s) (is_calibrating s)
    (recording s) (b s) (a s) (log s) (files s).

Definition set_noise_profile (p : option Np.array) (s : NoiseReducer)
    : NoiseReducer :=
  mkNoiseReducer (mode s) (chunk_size s) (sample_rate s) (audio_queue s)
    (output_frames s) (channels s) p (is_calibrating s)
    (recording s) (b s) (a s) (log s) (files s).

Definition set_is_calibrating (v : bool) (s : NoiseReducer) : NoiseReducer :=
  mkNoiseReducer (mode s) (chunk_size s) (sample_rate s) (audio_queue s)
    (output_frames s) (channels s) (noise_profile s) v
    (recording s) (b s) (a s) (log s) (files s).

Definition set_recording (v : bool) (s : NoiseReducer) : NoiseReducer :=
  mkNoiseReducer (mode s) (chunk_size s) (sample_rate s) (audio_queue s)
    (output_frames s) (channels s) (noise_profile s) (is_calibrating s)
    v (b s) (a s) (log s) (files s).

(** [logger.info], [logger.warning] and [logger.error]. *)
Definition logger (m : message) (s : NoiseReducer) : NoiseReducer :=
  mkNoiseReducer (mode s) (chunk_size s) (sample_rate s) (audio_queue s)
    (output_frames s) (channels s) (noise_profile s) (is_calibrating s)
    (recording s) (b s) (a s) (log s ++ [m]) (files s).

Definition write_file (name : string) (w : WaveFile) (s : NoiseReducer)
    : NoiseReducer :=
  mkNoiseReducer (mode s) (chunk_size s) (sample_rate s) (audio_queue s)
    (output_frames s) (channels s) (noise_profile s) (is_calibrating s)
    (recording s) (b s) (a s) (log s) ((name, w) :: files s).

(** How a method call ends: it returns (every method of the class returns
    [None]) or an exception leaves it. *)
Inductive outcome : Type :=
  | Returned
  | Raised (e : exn).

Section Init.

(** [scipy.signal.butter(order, [low, high], btype='band')]: the filter
    design is SciPy's, not this program's; it is a parameter.  It yields
    the coefficient arrays [(b, a)] or rejects the band. *)
Variable butter : nat -> R -> R -> result (list R * list R).

(** [NoiseReducer.__init__].  The sample format, the PyAudio handle and
    the [stop_flag] event are set here and read by no method below; they
    have no field in the record. *)
Definition init (mode : string) (chunk_size sample_rate : Z)
    : result NoiseReducer :=
  let nyquist := IZR sample_rate / 2 in
  if Z.eqb sample_rate 0 then Err ZeroDivisionError
  else
    ba <- butter 4 (300 / nyquist) (3400 / nyquist) ;;
    Ok (mkNoiseReducer mode chunk_size sample_rate [] [] 1 None false
          false (fst ba) (snd ba) [] []).

End Init.

(** [NoiseReducer.process_chunk], with the names of its local variables. *)
Definition clean_magnitude (chunk_spec noise_spec : list Np.complex)
    : result Np.array :=
  let chunk_mag := Np.abs chunk_spec in
  let noise_mag := Np.abs noise_spec in
  diff <- Np.broadcast2 Rminus chunk_mag noise_mag ;;
  Ok (Np.maximum diff 0).

Definition spectral_subtraction (filtered noise_profile : Np.array)
    : result (list Np.complex) :=
  chunk_spec <- Np.rfft filtered ;;
  noise_spec <- Np.rfft noise_profile ;;
  clean_mag <- clean_magnitude chunk_spec noise_spec ;;
  Np.broadcast2 Np.scale clean_mag (Np.expj (Np.angle chunk_spec)).

Definition process_chunk (self : NoiseReducer) (chunk : Np.array)
    : result Np.array :=
  let filtered := Signal.lfilter (b self) (a self) chunk in
  match noise_profile self with
  | Some profile =>
      clean_spec <- spectral_subtraction filtered profile ;;
      filtered' <- Np.irfft clean_spec ;;
      Ok (Np.clip filtered' (-1) 1)
  | None => Ok (Np.clip filtered (-1) 1)
  end.

(** [NoiseReducer.callback], run by the audio device for every chunk it
    captures.  [in_data] is the chunk that [np.frombuffer] decodes; the
    value returned to the device, [(in_data, paContinue)], is the same on
    every path and is left out.  An exception of the body is caught and
    logged.  [audio_queue.put] waits
    while the queue is full: [None] says that the call does not come back
    before the queue is read. *)
Definition callback (self : NoiseReducer) (in_data : Np.array)
    : option NoiseReducer :=
  if recording self || is_calibrating self then
    if recording self then
      match process_chunk self in_data with
      | Ok processed =>
          Some (set_output_frames (output_frames self ++ [processed]) self)
      | Err e => Some (logger (ErrorInCallback e) self)
      end
    else
      if (length (audio_queue self) <? maxsize)%nat then
        Some (set_audio_queue (audio_queue self ++ [in_data]) self)
      else None
  else Some self.

(** The device delivering several chunks in a row. *)
Fixpoint deliver (self : NoiseReducer) (chunks : list Np.array)
    : option NoiseReducer :=
  match chunks with
  | [] => Some self
  | c :: rest =>
      match callback self c with
      | Some self' => deliver self' rest
      | None => None
      end
  end.

(** [NoiseReducer.calibrate_noise].  The device runs beside the caller;
    a calibration is described by what the caller's loop meets: for every
    evaluation of the clock in the loop condition, the seconds [elapsed]
    since [start_time] and the chunks the device delivered
    ([arrivals], through [callback]) before the following
    [audio_queue.get(timeout=0.1)] gives up.  [late] are the chunks
    delivered after the loop and before [stop_stream]. *)
Record poll : Type := mkPoll {
  elapsed : R;
  arrivals : list Np.array
}.

Record calibration : Type := mkCalibration {
  polls : list poll;
  late : list Np.array
}.

Definition chunks_needed (self : NoiseReducer) (duration : R) : result Z :=
  if Z.eqb (chunk_size self) 0 then Err ZeroDivisionError
  else Ok (trunc (duration * IZR (sample_rate self)
                  / IZR (chunk_size self))).

(** The [while] loop.  The clock is read only when chunks are still
    missing.  [None]: the polls given end while the loop is still running,
    or a delivery meets a full queue. *)
Fixpoint poll_loop (needed : Z) (deadline : R) (self : NoiseReducer)
    (noise_chunks : list Np.array) (ps : list poll)
    : option (NoiseReducer * list Np.array) :=
  if (Z.of_nat (length noise_chunks) <? needed)%Z then
    match ps with
    | [] => None
    | p :: ps' =>
        if Rlt_dec (elapsed p) deadline then
          match deliver self (arrivals p) with
          | None => None
          | Some self1 =>
              match audio_queue self1 with
              | [] => poll_loop needed deadline self1 noise_chunks ps'
              | chunk :: q =>
                  poll_loop needed deadline (set_audio_queue q self1)
                    (noise_chunks ++ [chunk]) ps'
              end
          end
        else Some (self, noise_chunks)
    end
  else Some (self, noise_chunks).

(** From [if noise_chunks:] to the end of the method. *)
Definition calibrate_finish (self : NoiseReducer)
    (noise_chunks : list Np.array) : outcome * NoiseReducer :=
  match noise_chunks with
  | [] =>
      (Returned, set_is_calibrating false (logger NoChunksReceived self))
  | _ :: _ =>
      match Np.vstack noise_chunks with
      | Err e => (Raised e, self)
      | Ok m =>
          (Returned,
           set_is_calibrating false
             (logger CalibrationCompleted
                (set_noise_profile (Some (Np.mean_axis0 m)) self)))
      end
  end.

(** The first statements of the method, up to the emptied queue. *)
Definition calibrate_begin (self : NoiseReducer) : NoiseReducer :=
  set_audio_queue [] (set_is_calibrating true
                        (logger StartingCalibration self)).

Definition calibrate_noise (self : NoiseReducer) (duration : R)
    (dev : calibration) : option (outcome * NoiseReducer) :=
  let self := calibrate_begin self in
  match chunks_needed self duration with
  | Err e => Some (Raised e, self)
  | Ok needed =>
      match poll_loop needed (duration + 0.5) self [] (polls dev) with
      | None => None
      | Some (self1, noise_chunks) =>
          match deliver self1 (late dev) with
          | None => None
          | Some self2 => Some (calibrate_finish self2 noise_chunks)
          end
      end
  end.

(** [NoiseReducer.record].  [during] are the chunks the device delivers
    while the caller sleeps, [after] those between [self.recording = False]
    and [stop_stream].  [time.sleep] rejects a negative duration.  The
    [wave] module accepts what every object built by [__init__] hands to it
    (one channel, two bytes per sample, a positive frame rate); its own
    checks and the errors of the file system are left out. *)

(** The conversion of the accumulated samples for the wave file. *)
Definition int16_samples (audio_data : Np.array) : list Z :=
  Np.astype_int16 (map (fun x => x * 32767) audio_data).

Definition record_begin (filename : string) (self : NoiseReducer)
    : NoiseReducer :=
  set_output_frames [] (set_recording true
                          (logger (StartingRecording filename) self)).

Definition record_finish (filename : string) (self : NoiseReducer)
    : outcome * NoiseReducer :=
  match output_frames self with
  | [] => (Returned, logger NoFramesCaptured self)
  | _ :: _ =>
      let audio_data := Np.concatenate (output_frames self) in
      let audio_data := int16_samples audio_data in
      let wf := mkWaveFile (channels self) 2 (sample_rate self)
                  (Np.tobytes audio_data) in
      let actual_duration :=
        INR (length audio_data) / IZR (sample_rate self) in
      (Returned,
       logger (ActualDuration actual_duration)
         (logger (RecordingSaved filename)
            (write_file filename wf self)))
  end.

Definition record (self : NoiseReducer) (duration : R) (filename : string)
    (during after : list Np.array) : option (outcome * NoiseReducer) :=
  let self := record_begin filename self in
  if Rlt_dec duration 0 then Some (Raised ValueError, self)
  else
    match deliver self during with
    | None => None
    | Some self1 =>
        match deliver (set_recording false self1) after with
        | None => None
        | Some self2 => Some (record_finish filename self2)
        end
    end.

(** ** The program *)

(** [NoiseReducer.cleanup] calls [self.p.terminate()]; the PyAudio handle
    has no field in the record, the object is as before. *)
Definition cleanup (self : NoiseReducer) : NoiseReducer := self.

(** What [main] writes for the user: the prompts of [input], the lines of
    [print] and its one log record, "Error during recording: ...". *)
Inductive main_event : Type :=
  | Prompted (text : string)
  | Printed (text : string)
  | ErrorDuringRecording (e : exn).

(** How a run of [main] ends: with [main_outcome]; [main_object] is
    [noise_reducer] as the run leaves it, if it was built; [main_cleaned]
    says whether [cleanup] was called. *)
Record main_result : Type := mkMainResult {
  main_outcome : outcome;
  main_object : option NoiseReducer;
  main_events : list main_event;
  main_cleaned : bool
}.

Section Main.

Variable butter : nat -> R -> R -> result (list R * list R).

(** [main].  The user's answers are parameters: [mode] is the first answer
    after [strip()], [duration] is what [float] makes of the answer to the
    duration prompt ([None] when it raises [ValueError]), [filename] the
    last answer.  [cal] is the device during the calibration, [during] and
    [after] are its deliveries during the recording.  The constructor runs
    before the [try], so an exception of [__init__] leaves [main]; every
    exception of the statements inside the [try] is logged and [cleanup]
    runs.  An interrupt from the keyboard is not modelled.  [None]: the
    device schedules do not describe a complete run. *)
Definition main (mode : string) (duration : option R) (filename : string)
    (cal : calibration) (during after : list Np.array)
    : option main_result :=
  let ask_mode :=
    [Prompted "Select mode (single_speaker/multiple_speakers): "] in
  match init butter mode 2048 44100 with
  | Err e => Some (mkMainResult (Raised e) None ask_mode false)
  | Ok noise_reducer =>
      let ask_enter := ask_mode ++
        [Prompted
           "Press Enter to start noise calibration (ensure silence)..."] in
      match calibrate_noise noise_reducer 2 cal with
      | None => None
      | Some (Raised e, nr) =>
          Some (mkMainResult Returned (Some (cleanup nr))
                  (ask_enter ++ [ErrorDuringRecording e]) true)
      | Some (Returned, nr) =>
          let ask_duration := ask_enter ++
            [Prompted "Enter recording duration (seconds): "] in
          match duration with
          | None =>
              Some (mkMainResult Returned (Some (cleanup nr))
                      (ask_duration ++ [ErrorDuringRecording ValueError])
                      true)
          | Some d =>
              let countdown := ask_duration ++
                [Prompted "Enter output filename (.wav): ";
                 Printed "Recording will start in 3 seconds...";
                 Printed "Recording..."] in
              match record nr d filename during after with
              | None => None
              | Some (Raised e, nr') =>
                  Some (mkMainResult Returned (Some (cleanup nr'))
                          (countdown ++ [ErrorDuringRecording e]) true)
              | Some (Returned, nr') =>
                  Some (mkMainResult Returned (Some (cleanup nr'))
                          (countdown ++ [Printed "Recording completed"])
                          true)
              end
          end
      end
  end.

End Main.

(** ** Objects and devices used as examples *)

(** The object [NoiseReducer()] builds with its default arguments, for a
    filter design that returns the pass-through filter [b = a = [1]]. *)
Definition reducer0 : NoiseReducer :=
  mkNoiseReducer "single_speaker" 2048 44100 [] [] 1 None false false
    [1] [1] [] [].

(** The controller in the middle of a calibration. *)
Definition calibrating0 : NoiseReducer := calibrate_begin reducer0.

(** The controller in the middle of a recording. *)
Definition recording0 : NoiseReducer := record_begin "out.wav" reducer0.

(** Controllers that an earlier calibration left with a noise profile of
    two samples, of three samples and of one sample. *)
Definition calibrated : NoiseReducer :=
  set_noise_profile (Some [0.25; -0.25]) reducer0.

Definition calibrated3 : NoiseReducer :=
  set_noise_profile (Some [0.25; -0.25; 0]) reducer0.

Definition single_sample : NoiseReducer :=
  set_noise_profile (Some [0.25]) reducer0.

(** Two polls without a chunk, the second one after the deadline of a
    two-second calibration. *)
Definition silent_device : calibration :=
  mkCalibration [mkPoll 1 []; mkPoll 3 []] [].

(** A device that delivers the same chunk before each of two polls of a
    calibration of a tenth of a second, which waits for two chunks. *)
Definition steady_device : calibration :=
  mkCalibration [mkPoll 0 [[0.5; -0.5]]; mkPoll 0.05 [[0.5; -0.5]]] [].

(** ** The words of the specification *)





(** ** Observations and invariants *)

(** The callback writes the queue, the output frames and the log only. *)
Definition same_settings (s s' : NoiseReducer) : Prop :=
  mode s' = mode s /\ chunk_size s' = chunk_size s /\
  sample_rate s' = sample_rate s /\ channels s' = channels s /\
  noise_profile s' = noise_profile s /\
  is_calibrating s' = is_calibrating s /\ recording s' = recording s /\
  b s' = b s /\ a s' = a s /\ files s' = files s.

(** The chunks a calibration run has in [noise_chunks] when its loop ends
    (none when the method is left before the loop). *)
Definition collected (self : NoiseReducer) (duration : R) (dev : calibration)
    : option (list Np.array) :=
  match chunks_needed (calibrate_begin self) duration with
  | Err _ => Some []
  | Ok needed =>
      match poll_loop needed (duration + 0.5) (calibrate_begin self) []
              (polls dev) with
      | None => None
      | Some (_, chunks) => Some chunks
      end
  end.

(** Samples in [[-1, 1]], and an accumulator that holds only such. *)
Definition unit_range (x : R) : Prop := -1 <= x <= 1.


(** The cleaned magnitudes as one map over the paired magnitudes. *)
Definition floor_at_zero (chunk_mag noise_mag : Np.array) : Np.array :=
  map (fun p => Rmax (fst p - snd p) 0) (combine chunk_mag noise_mag).

(** What a caller can see of a finished method call: how it ended and every
    field of the object except [mode]. *)
Definition lift_mode (m : string) (r : outcome * NoiseReducer)
    : outcome * NoiseReducer :=
  (fst r, set_mode m (snd r)).

Definition observe (r : outcome * NoiseReducer) : outcome * NoiseReducer :=
  lift_mode EmptyString r.

(** ** Further notions used in the properties *)

(** The chunk length [N] and the profile length [M] for which the spectral
    path of [process_chunk] goes through: both arrays non-empty, half
    spectra of the same size or one of them a single bin (which NumPy
    stretches), and at least two bins for the inverse transform. *)
Definition shapes_accepted (N M : nat) : Prop :=
  (1 <= N /\ 1 <= M /\ (N / 2 = M / 2 \/ M = 1 \/ N = 1) /\
   2 <= Nat.max N M)%nat.

(** The queue holds no more than its capacity. *)
Definition queue_bounded (self : NoiseReducer) : Prop :=
  (length (audio_queue self) <= maxsize)%nat.

(** An object built with a chunk size of zero. *)
Definition zero_chunk_size : NoiseReducer :=
  mkNoiseReducer "single_speaker" 0 44100 [] [] 1 None false false
    [1] [1] [] [].

(** A device that delivers one chunk before the first poll and is read
    again after the deadline of a two-second calibration. *)
Definition single_delivery : calibration :=
  mkCalibration [mkPoll 0 [[0.5]]; mkPoll 3 []] [].

(** A device whose two chunks differ in length. *)
Definition ragged_device : calibration :=
  mkCalibration [mkPoll 0 [[0.5]]; mkPoll 0.05 [[0.5; -0.5]]] [].


(** What [process_chunk] makes of a chunk when there is no noise profile. *)
Definition filter_and_clip (self : NoiseReducer) (chunk : Np.array)
    : Np.array :=
  Np.clip (Signal.lfilter (b self) (a self) chunk) (-1) 1.

(** Reading a 16-bit sample back from its two bytes, low byte first. *)
Definition int16_of_bytes (lo hi : Z) : Z :=
  let u := (lo + 256 * hi)%Z in
  if (u <? 32768)%Z then u else (u - 65536)%Z.

(** A filter design that always returns the pass-through filter. *)
Definition pass_through_design (order : nat) (low high : R)
    : result (list R * list R) :=
  Ok ([1], [1]).

(** What the user sees of a run of [main] that goes through. *)
Definition full_session_console : list main_event :=
  [Prompted "Select mode (single_speaker/multiple_speakers): ";
   Prompted "Press Enter to start noise calibration (ensure silence)...";
   Prompted "Enter recording duration (seconds): ";
   Prompted "Enter output filename (.wav): ";
   Printed "Recording will start in 3 seconds...";
   Printed "Recording...";
   Printed "Recording completed"].

(** Two objects that agree on what the device's chunks meet: the queue and
    the two session flags. *)
Definition same_bus (s1 s2 : NoiseReducer) : Prop :=
  audio_queue s1 = audio_queue s2 /\
  recording s1 = recording s2 /\
  is_calibrating s1 = is_calibrating s2.

(** * Properties *)

(** Running a loop on a concrete device: the clock comparisons are settled
    by linear arithmetic. *)
Ltac run_loop :=
  cbn -[Rlt_dec Rplus Rminus Rdiv Rmult Ropp IZR];
  repeat (match goal with
          | |- context [Rlt_dec ?x ?y] =>
              destruct (Rlt_dec x y); [| exfalso; lra]
          end;
          cbn -[Rlt_dec Rplus Rminus Rdiv Rmult Ropp IZR]).

(** ** Conversions between floats and integers *)

Lemma trunc_eq_nonneg (x : R) (z : Z) :
  IZR z <= x < IZR z + 1 -> 0 <= x -> trunc x = z.
Proof.
  intros Hb H0. unfold trunc.
  destruct (Rle_dec 0 x) as [_|n]; [now apply Zfloor_eq | contradiction].
Qed.

Lemma trunc_eq_neg (x : R) (z : Z) :
  IZR z - 1 < x <= IZR z -> x < 0 -> trunc x = z.
Proof.
  intros Hb H0. unfold trunc.
  destruct (Rle_dec 0 x) as [p|_]; [lra | now apply Zceil_eq].
Qed.




(** ** The number of chunks a calibration waits for *)






(** ** What the device cannot change *)

Ltac settings := unfold same_settings; simpl; repeat split; congruence.

Lemma same_settings_refl (s : NoiseReducer) : same_settings s s.
Proof. settings. Qed.

Lemma same_settings_trans (s1 s2 s3 : NoiseReducer) :
  same_settings s1 s2 -> same_settings s2 s3 -> same_settings s1 s3.
Proof.
  unfold same_settings. intros H12 H23.
  decompose [and] H12. decompose [and] H23. repeat split; congruence.
Qed.

Lemma callback_settings (self self' : NoiseReducer) (in_data : Np.array) :
  callback self in_data = Some self' -> same_settings self self'.
Proof.
  unfold callback. intros H.
  destruct (recording self) eqn:Hrec; simpl in H.
  - destruct (process_chunk self in_data); inversion H; subst; settings.
  - destruct (is_calibrating self) eqn:Hcal.
    + destruct (length (audio_queue self) <? maxsize)%nat;
        inversion H; subst; settings.
    + inversion H; subst; settings.
Qed.

Lemma deliver_settings (chunks : list Np.array) :
  forall self self',
    deliver self chunks = Some self' -> same_settings self self'.
Proof.
  induction chunks as [|c rest IH]; simpl; intros self self' H.
  - inversion H; subst. apply same_settings_refl.
  - destruct (callback self c) as [s1|] eqn:Hcb; [|discriminate].
    eapply same_settings_trans;
      [eapply callback_settings; eauto | eapply IH; eauto].
Qed.

Lemma set_audio_queue_settings (q : list Np.array) (s : NoiseReducer) :
  same_settings s (set_audio_queue q s).
Proof. settings. Qed.

Lemma poll_loop_settings (needed : Z) (deadline : R) (ps : list poll) :
  forall self acc self1 chunks,
    poll_loop needed deadline self acc ps = Some (self1, chunks) ->
    same_settings self self1.
Proof.
  induction ps as [|p ps IH]; intros self acc self1 chunks Hrun;
    simpl in Hrun;
    destruct (Z.of_nat (length acc) <? needed)%Z;
    try discriminate;
    try (inversion Hrun; subst; apply same_settings_refl).
  destruct (Rlt_dec (elapsed p) deadline);
    [| inversion Hrun; subst; apply same_settings_refl].
  destruct (deliver self (arrivals p)) as [s1|] eqn:Hd; [|discriminate].
  apply deliver_settings in Hd.
  destruct (audio_queue s1) as [|chunk q].
  - eapply same_settings_trans; [exact Hd | eapply IH; eauto].
  - eapply same_settings_trans; [exact Hd |].
    eapply same_settings_trans;
      [apply (set_audio_queue_settings q) | eapply IH; eauto].
Qed.

(** Denoising reads the filter coefficients and the noise profile, nothing
    else. *)
Lemma process_chunk_ext (s s' : NoiseReducer) (chunk : Np.array) :
  b s' = b s -> a s' = a s -> noise_profile s' = noise_profile s ->
  process_chunk s' chunk = process_chunk s chunk.
Proof.
  intros Hb Ha Hp. unfold process_chunk. rewrite Hb, Ha, Hp. reflexivity.
Qed.

(** ** Which exceptions leave the methods *)

Lemma chunks_needed_err (self : NoiseReducer) (duration : R) (e : exn) :
  chunks_needed self duration = Err e -> e = ZeroDivisionError.
Proof.
  unfold chunks_needed.
  destruct (chunk_size self =? 0)%Z; intros H; inversion H; reflexivity.
Qed.

Lemma vstack_err (rows : list Np.array) (e : exn) :
  Np.vstack rows = Err e -> e = ValueError.
Proof.
  unfold Np.vstack. destruct rows as [|r rs].
  - intros H; inversion H; reflexivity.
  - match goal with |- context [if ?c then _ else _] => destruct c end;
      intros H; inversion H; reflexivity.
Qed.

Lemma calibrate_finish_raises (self self' : NoiseReducer)
    (noise_chunks : list Np.array) (e : exn) :
  calibrate_finish self noise_chunks = (Raised e, self') -> e = ValueError.
Proof.
  unfold calibrate_finish. destruct noise_chunks as [|c cs].
  - intros H; inversion H.
  - destruct (Np.vstack (c :: cs)) eqn:Hv; intros H; inversion H; subst.
    eapply vstack_err; eauto.
Qed.

Lemma calibrate_noise_raises (self self' : NoiseReducer) (duration : R)
    (dev : calibration) (e : exn) :
  calibrate_noise self duration dev = Some (Raised e, self') ->
  e = ZeroDivisionError \/ e = ValueError.
Proof.
  unfold calibrate_noise. intros H.
  destruct (chunks_needed (calibrate_begin self) duration) as [needed|e']
    eqn:Hn.
  - destruct (poll_loop needed (duration + 0.5) (calibrate_begin self) []
                (polls dev)) as [[s1 chunks]|]; [|discriminate].
    destruct (deliver s1 (late dev)) as [s2|]; [|discriminate].
    inversion H as [Hf]. right. eapply calibrate_finish_raises; eauto.
  - inversion H; subst. left. eapply chunks_needed_err; eauto.
Qed.

Lemma record_finish_returns (filename : string) (self : NoiseReducer) :
  fst (record_finish filename self) = Returned.
Proof. unfold record_finish. destruct (output_frames self); reflexivity. Qed.

Lemma record_raises (self self' : NoiseReducer) (duration : R)
    (filename : string) (during after : list Np.array) (e : exn) :
  record self duration filename during after = Some (Raised e, self') ->
  e = ValueError /\ duration < 0.
Proof.
  unfold record. intros H.
  destruct (Rlt_dec duration 0) as [Hneg|_].
  - inversion H; subst. split; [reflexivity | exact Hneg].
  - destruct (deliver (record_begin filename self) during) as [s1|];
      [|discriminate].
    destruct (deliver (set_recording false s1) after) as [s2|];
      [|discriminate].
    pose proof (record_finish_returns filename s2) as Hr.
    inversion H as [Hf]. rewrite Hf in Hr. discriminate.
Qed.

(** ** Calibration runs *)

(** A device that stays silent until the deadline has passed. *)
Lemma poll_loop_silent (needed : Z) (deadline : R) (ps : list poll) :
  forall self,
    audio_queue self = [] ->
    Forall (fun p => arrivals p = []) ps ->
    Exists (fun p => deadline <= elapsed p) ps ->
    poll_loop needed deadline self [] ps = Some (self, []).
Proof.
  induction ps as [|p ps IH]; intros self Hq Hsilent Hlate.
  - inversion Hlate.
  - simpl. destruct (0 <? needed)%Z; [|reflexivity].
    destruct (Rlt_dec (elapsed p) deadline) as [Hlt|_]; [|reflexivity].
    inversion Hsilent as [|? ? Hp Hps]; subst.
    rewrite Hp. simpl. rewrite Hq.
    apply IH; [exact Hq | exact Hps |].
    inversion Hlate as [? ? Hnow|? ? Hlater]; subst; [lra | exact Hlater].
Qed.

Lemma calibrate_silent (self : NoiseReducer) (duration : R)
    (dev : calibration) :
  chunk_size self <> 0%Z ->
  Forall (fun p => arrivals p = []) (polls dev) ->
  late dev = [] ->
  Exists (fun p => duration + 0.5 <= elapsed p) (polls dev) ->
  calibrate_noise self duration dev =
    Some (Returned,
          set_is_calibrating false
            (logger NoChunksReceived (calibrate_begin self))) /\
  collected self duration dev = Some [].
Proof.
  intros Hcs Hsilent Hlate Hdead.
  unfold calibrate_noise, collected.
  assert (Hn : exists needed,
             chunks_needed (calibrate_begin self) duration = Ok needed).
  { unfold chunks_needed. simpl.
    destruct (Z.eqb_spec (chunk_size self) 0); [contradiction|].
    eexists; reflexivity. }
  destruct Hn as [needed Hn]. rewrite Hn.
  rewrite (poll_loop_silent needed (duration + 0.5) (polls dev)
             (calibrate_begin self) eq_refl Hsilent Hdead).
  rewrite Hlate. simpl. split; reflexivity.
Qed.

Lemma silent_device_run :
  calibrate_noise reducer0 2 silent_device =
    Some (Returned,
          set_is_calibrating false
            (logger NoChunksReceived (calibrate_begin reducer0))) /\
  collected reducer0 2 silent_device = Some [].
Proof.
  apply calibrate_silent.
  - discriminate.
  - repeat constructor.
  - reflexivity.
  - apply Exists_cons_tl, Exists_cons_hd. simpl. lra.
Qed.

(** C2, as the specification states it, fails: a calibration of the default
    object during which the device delivers nothing returns normally; the
    method returns [None] on every path, so [CalibrationFailed] could only
    come out as a raised error, and it does not. *)
Lemma silent_calibration_returns :
  collected reducer0 2 silent_device = Some [] /\
  exists self',
    calibrate_noise reducer0 2 silent_device = Some (Returned, self') /\
    calibrate_noise reducer0 2 silent_device
      <> Some (Raised CalibrationFailed, self').
Proof.
  destruct silent_device_run as [Hrun Hcol].
  split; [exact Hcol |].
  eexists. split; [exact Hrun |].
  rewrite Hrun. discriminate.
Qed.

(** C2, amended: a calibration run that collects no chunk never yields
    [CalibrationFailed]; unless the chunk size is zero it returns normally,
    with the warning as its last log record and [is_calibrating] cleared. *)
Theorem calibrate_without_chunks (self self' : NoiseReducer) (duration : R)
    (dev : calibration) (out : outcome) :
  calibrate_noise self duration dev = Some (out, self') ->
  collected self duration dev = Some [] ->
  out <> Raised CalibrationFailed /\
  (chunk_size self <> 0%Z ->
   out = Returned /\
   is_calibrating self' = false /\
   last (log self') StartingCalibration = NoChunksReceived).
Proof.
  intros Hrun Hcol. split.
  - intros ->. apply calibrate_noise_raises in Hrun.
    destruct Hrun; discriminate.
  - intros Hcs. revert Hrun Hcol. unfold calibrate_noise, collected.
    unfold chunks_needed at 1 2. simpl.
    destruct (Z.eqb_spec (chunk_size self) 0); [contradiction|].
    destruct (poll_loop _ _ _ _ _) as [[s1 chunks]|]; [|discriminate].
    intros Hrun Hcol. inversion Hcol; subst chunks.
    destruct (deliver s1 (late dev)) as [s2|]; [|discriminate].
    simpl in Hrun. inversion Hrun; subst.
    repeat split. simpl. apply last_last.
Qed.

(** The default object and a silent device. *)
Lemma calibrate_without_chunks_witness :
  exists self',
    calibrate_noise reducer0 2 silent_device = Some (Returned, self') /\
    is_calibrating self' = false /\
    last (log self') StartingCalibration = NoChunksReceived.
Proof.
  eexists. split; [exact (proj1 silent_device_run) |].
  refine (proj2 (proj2 (calibrate_without_chunks reducer0 _ 2 silent_device
                          Returned (proj1 silent_device_run)
                          (proj2 silent_device_run)) _)).
  simpl. lia.
Defined.

(** ** Starting one session while the other is active *)

Lemma deliver_recording (chunks : list Np.array) :
  forall self,
    recording self = true ->
    exists self',
      deliver self chunks = Some self' /\
      audio_queue self' = audio_queue self.
Proof.
  induction chunks as [|c rest IH]; simpl; intros self Hrec.
  - eexists; split; reflexivity.
  - unfold callback. rewrite Hrec. simpl.
    destruct (process_chunk self c) as [processed|e].
    + destruct (IH (set_output_frames (output_frames self ++ [processed])
                      self) Hrec) as [s' [Hd Hq]].
      exists s'. split; [exact Hd | exact Hq].
    + destruct (IH (logger (ErrorInCallback e) self) Hrec)
        as [s' [Hd Hq]].
      exists s'. split; [exact Hd | exact Hq].
Qed.

(** C3, as the specification states it, fails: [record] called while a
    calibration is active sets [recording] and runs to its end, and
    [calibrate_noise] called while a recording is active sets
    [is_calibrating] and runs to its end; neither yields
    [SessionBusyError]. *)
Lemma busy_sessions_start :
  is_calibrating calibrating0 = true /\
  recording (record_begin "out.wav" calibrating0) = true /\
  (exists self',
     record calibrating0 1 "out.wav" [] [] = Some (Returned, self')) /\
  recording recording0 = true /\
  is_calibrating (calibrate_begin recording0) = true /\
  (exists self',
     calibrate_noise recording0 2 silent_device = Some (Returned, self')).
Proof.
  repeat split.
  - unfold record. destruct (Rlt_dec 1 0) as [H|_]; [lra|].
    simpl. eexists; reflexivity.
  - eexists. apply calibrate_silent.
    + discriminate.
    + repeat constructor.
    + reflexivity.
    + apply Exists_cons_tl, Exists_cons_hd. simpl. lra.
Qed.

(** C3, amended: the two methods start unconditionally.  [record] sets
    [recording] and leaves [is_calibrating] as it is, [calibrate_noise] sets
    [is_calibrating] and leaves [recording] as it is; no run of either
    yields [SessionBusyError]; while [recording] is set the callback treats
    every chunk as recording input and leaves the queue alone. *)
Theorem sessions_start_unguarded (self : NoiseReducer) :
  (forall filename,
     recording (record_begin filename self) = true /\
     is_calibrating (record_begin filename self) = is_calibrating self) /\
  (is_calibrating (calibrate_begin self) = true /\
   recording (calibrate_begin self) = recording self) /\
  (forall duration filename during after out self',
     record self duration filename during after = Some (out, self') ->
     out <> Raised SessionBusyError) /\
  (forall duration dev out self',
     calibrate_noise self duration dev = Some (out, self') ->
     out <> Raised SessionBusyError) /\
  (forall chunks,
     recording self = true ->
     exists self',
       deliver self chunks = Some self' /\
       audio_queue self' = audio_queue self).
Proof.
  repeat split.
  - intros duration filename during after out self' Hrun ->.
    apply record_raises in Hrun. destruct Hrun; discriminate.
  - intros duration dev out self' Hrun ->.
    apply calibrate_noise_raises in Hrun. destruct Hrun; discriminate.
  - intros chunks Hrec. now apply deliver_recording.
Qed.

(** ** The noise profile a calibration leaves behind *)

Lemma calibrate_begin_settings (self : NoiseReducer) :
  noise_profile (calibrate_begin self) = noise_profile self /\
  b (calibrate_begin self) = b self /\ a (calibrate_begin self) = a self.
Proof. repeat split. Qed.

(** C9: a calibration run that collects no chunk leaves the stored noise
    profile as it was, and denoising afterwards gives what it gave before
    the run. *)
Theorem failed_calibration_keeps_profile (self self' : NoiseReducer)
    (duration : R) (dev : calibration) (out : outcome) :
  calibrate_noise self duration dev = Some (out, self') ->
  collected self duration dev = Some [] ->
  noise_profile self' = noise_profile self /\
  forall chunk, process_chunk self' chunk = process_chunk self chunk.
Proof.
  intros Hrun Hcol.
  assert (H : noise_profile self' = noise_profile self /\
              b self' = b self /\ a self' = a self).
  { revert Hrun Hcol. unfold calibrate_noise, collected.
    destruct (chunks_needed (calibrate_begin self) duration) as [needed|e].
    - destruct (poll_loop needed (duration + 0.5) (calibrate_begin self) []
                  (polls dev)) as [[s1 chunks]|] eqn:Hloop; [|discriminate].
      intros Hrun Hcol. inversion Hcol; subst chunks.
      destruct (deliver s1 (late dev)) as [s2|] eqn:Hlate; [|discriminate].
      apply poll_loop_settings in Hloop. apply deliver_settings in Hlate.
      unfold same_settings in Hloop, Hlate.
      decompose [and] Hloop. decompose [and] Hlate.
      simpl in Hrun. inversion Hrun; subst. simpl in *.
      repeat split; congruence.
    - intros Hrun _. inversion Hrun; subst. repeat split. }
  destruct H as [Hp [Hb Ha]].
  split; [exact Hp |].
  intros chunk. now apply process_chunk_ext.
Qed.

(** A calibrated object keeps its profile through a calibration that meets a
    silent device. *)
Lemma failed_calibration_keeps_profile_witness :
  exists self',
    calibrate_noise calibrated 2 silent_device = Some (Returned, self') /\
    noise_profile self' = Some [0.25; -0.25].
Proof.
  assert (Hrun : calibrate_noise calibrated 2 silent_device =
                   Some (Returned,
                         set_is_calibrating false
                           (logger NoChunksReceived
                              (calibrate_begin calibrated))) /\
                 collected calibrated 2 silent_device = Some []).
  { apply calibrate_silent.
    - simpl. lia.
    - repeat constructor.
    - reflexivity.
    - apply Exists_cons_tl, Exists_cons_hd. simpl. lra. }
  eexists. split; [exact (proj1 Hrun) |].
  exact (proj1 (failed_calibration_keeps_profile calibrated _ 2
                  silent_device Returned (proj1 Hrun) (proj2 Hrun))).
Defined.






Lemma steady_device_run :
  exists self',
    calibrate_noise reducer0 0.1 steady_device = Some (Returned, self') /\
    collected reducer0 0.1 steady_device = Some (repeat [0.5; -0.5] 2).
Proof.
  assert (Hn : chunks_needed (calibrate_begin reducer0) 0.1 = Ok 2%Z).
  { unfold chunks_needed; simpl. f_equal. apply trunc_eq_nonneg; lra. }
  unfold calibrate_noise, collected. rewrite Hn.
  unfold steady_device. run_loop.
  eexists. split; reflexivity.
Qed.


(** ** From float samples to 16-bit samples *)





Lemma clip_unit_range (a : Np.array) :
  Forall unit_range (Np.clip a (-1) 1).
Proof.
  unfold Np.clip. apply Forall_forall. intros y Hy.
  apply in_map_iff in Hy. destruct Hy as [x [<- _]].
  unfold unit_range, Rmin, Rmax.
  destruct (Rle_dec x (-1)); destruct (Rle_dec _ 1); lra.
Qed.







(** ** Shapes of the arrays in [process_chunk] *)

Lemma lfilter_from_length (b a : list R) (x : list R) :
  forall xh yh, length (Signal.lfilter_from b a xh yh x) = length x.
Proof.
  induction x as [|xn x IH]; intros xh yh; simpl.
  - reflexivity.
  - rewrite IH. reflexivity.
Qed.

Lemma lfilter_length (b a : list R) (x : list R) :
  length (Signal.lfilter b a x) = length x.
Proof. apply lfilter_from_length. Qed.

Lemma clip_length (x : Np.array) (lo hi : R) :
  length (Np.clip x lo hi) = length x.
Proof. apply length_map. Qed.

Lemma rfft_ok (x : Np.array) :
  x <> [] ->
  Np.rfft x = Ok (map (Np.rfft_bin x) (seq 0 (length x / 2 + 1))).
Proof. destruct x; [contradiction | reflexivity]. Qed.

Lemma rfft_length (x : Np.array) (X : list Np.complex) :
  Np.rfft x = Ok X -> x <> [] /\ length X = (length x / 2 + 1)%nat.
Proof.
  destruct x as [|x0 x]; [discriminate|].
  intros H. rewrite rfft_ok in H by discriminate.
  inversion H; subst. split; [discriminate |].
  rewrite length_map, length_seq. reflexivity.
Qed.

Lemma broadcast2_same_length {A B C : Type} (f : A -> B -> C)
    (xs : list A) (ys : list B) :
  length xs = length ys ->
  Np.broadcast2 f xs ys =
    Ok (map (fun p => f (fst p) (snd p)) (combine xs ys)).
Proof.
  intros Hlen. unfold Np.broadcast2.
  rewrite (proj2 (Nat.eqb_eq _ _) Hlen). reflexivity.
Qed.

Lemma map_combine_length {A B C : Type} (f : A * B -> C)
    (xs : list A) (ys : list B) :
  length xs = length ys -> length (map f (combine xs ys)) = length xs.
Proof. intros H. rewrite length_map, length_combine. lia. Qed.

Lemma irfft_ok (X : list Np.complex) :
  (2 <= length X)%nat ->
  Np.irfft X =
    Ok (map (Np.irfft_sample X (2 * (length X - 1)))
          (seq 0 (2 * (length X - 1)))).
Proof.
  intros H. unfold Np.irfft.
  destruct (Nat.ltb_spec (2 * (length X - 1)) 1); [lia | reflexivity].
Qed.

Lemma irfft_short (X : list Np.complex) :
  (length X <= 1)%nat -> Np.irfft X = Err ValueError.
Proof.
  intros H. unfold Np.irfft.
  destruct (Nat.ltb_spec (2 * (length X - 1)) 1); [reflexivity | lia].
Qed.

Lemma irfft_length (X : list Np.complex) (x : Np.array) :
  Np.irfft X = Ok x ->
  (2 <= length X)%nat /\ length x = (2 * (length X - 1))%nat.
Proof.
  intros H.
  destruct (Nat.le_gt_cases 2 (length X)) as [Hge|Hlt].
  - rewrite irfft_ok in H by exact Hge. inversion H; subst.
    split; [exact Hge |]. rewrite length_map, length_seq. reflexivity.
  - rewrite irfft_short in H by lia. discriminate.
Qed.

(** ** Denoising without a noise profile *)

(** C6: without a noise profile, denoising returns the band-pass filtered
    chunk clipped to [[-1, 1]]: as long as the input, every sample in
    [[-1, 1]]. *)
Theorem process_chunk_without_profile (self : NoiseReducer)
    (chunk : Np.array) :
  noise_profile self = None ->
  exists out,
    process_chunk self chunk = Ok out /\
    out = Np.clip (Signal.lfilter (b self) (a self) chunk) (-1) 1 /\
    length out = length chunk /\
    Forall unit_range out.
Proof.
  intros Hnone. unfold process_chunk. rewrite Hnone.
  eexists. split; [reflexivity |]. split; [reflexivity |]. split.
  - rewrite clip_length. apply lfilter_length.
  - apply clip_unit_range.
Qed.

(** The default object has no profile; samples outside the range come back
    clipped. *)
Lemma process_chunk_without_profile_witness :
  exists out,
    process_chunk reducer0 [0.5; 2; -3] = Ok out /\
    length out = 3%nat /\ Forall unit_range out.
Proof.
  destruct (process_chunk_without_profile reducer0 [0.5; 2; -3] eq_refl)
    as [out [Hrun [_ [Hlen Hrange]]]].
  exists out. split; [exact Hrun |]. split; [exact Hlen | exact Hrange].
Defined.

(** ** Spectral subtraction *)

Lemma abs_length (X : list Np.complex) : length (Np.abs X) = length X.
Proof. apply length_map. Qed.

Lemma phase_length (X : list Np.complex) :
  length (Np.expj (Np.angle X)) = length X.
Proof. unfold Np.expj, Np.angle. now rewrite !length_map. Qed.

Lemma cabs_nonneg (z : Np.complex) : 0 <= Np.cabs z.
Proof. apply sqrt_pos. Qed.


Lemma clean_magnitude_ok (chunk_spec noise_spec : list Np.complex) :
  length noise_spec = length chunk_spec ->
  clean_magnitude chunk_spec noise_spec =
    Ok (floor_at_zero (Np.abs chunk_spec) (Np.abs noise_spec)).
Proof.
  intros Hlen. unfold clean_magnitude.
  rewrite broadcast2_same_length by (rewrite !abs_length; congruence).
  simpl. unfold Np.maximum, floor_at_zero. now rewrite map_map.
Qed.

Lemma floor_at_zero_length (chunk_mag noise_mag : Np.array) :
  length noise_mag = length chunk_mag ->
  length (floor_at_zero chunk_mag noise_mag) = length chunk_mag.
Proof.
  intros H. unfold floor_at_zero. apply map_combine_length. congruence.
Qed.




Lemma abs_nonneg (X : list Np.complex) : Forall (Rle 0) (Np.abs X).
Proof.
  unfold Np.abs. apply Forall_forall. intros m Hm.
  apply in_map_iff in Hm. destruct Hm as [z [<- _]]. apply cabs_nonneg.
Qed.


Lemma zeros_below (zs ms : Np.array) :
  length zs = length ms ->
  Forall (fun m => m = 0) zs -> Forall (Rle 0) ms -> Forall2 Rle zs ms.
Proof.
  revert ms. induction zs as [|z zs IH]; intros [|m ms] Hlen Hz Hm;
    simpl in *; try discriminate; constructor.
  - inversion Hz; inversion Hm; subst. lra.
  - inversion Hz; inversion Hm; subst. apply IH; auto.
Qed.

Lemma spectral_subtraction_ok (filtered profile : Np.array) :
  filtered <> [] -> length profile = length filtered ->
  exists chunk_spec noise_spec,
    Np.rfft filtered = Ok chunk_spec /\
    Np.rfft profile = Ok noise_spec /\
    length chunk_spec = (length filtered / 2 + 1)%nat /\
    length noise_spec = length chunk_spec /\
    spectral_subtraction filtered profile =
      Ok (map (fun p => Np.scale (fst p) (snd p))
            (combine (floor_at_zero (Np.abs chunk_spec) (Np.abs noise_spec))
               (Np.expj (Np.angle chunk_spec)))).
Proof.
  intros Hne Hlen.
  assert (Hpne : profile <> []).
  { destruct profile; [| discriminate].
    destruct filtered; [contradiction | discriminate]. }
  pose proof (rfft_ok filtered Hne) as Hc.
  pose proof (rfft_ok profile Hpne) as Hn.
  destruct (rfft_length _ _ Hc) as [_ Hcl].
  destruct (rfft_length _ _ Hn) as [_ Hnl].
  do 2 eexists. split; [exact Hc |]. split; [exact Hn |].
  split; [exact Hcl |]. split; [rewrite Hcl, Hnl, Hlen; reflexivity |].
  unfold spectral_subtraction. rewrite Hc, Hn. cbn [bind].
  rewrite clean_magnitude_ok by (rewrite Hcl, Hnl, Hlen; reflexivity).
  cbn [bind]. apply broadcast2_same_length.
  rewrite floor_at_zero_length, abs_length, phase_length; try reflexivity.
  rewrite !abs_length, Hcl, Hnl, Hlen. reflexivity.
Qed.



(** ** The length of a denoised chunk *)

Lemma half_bounds (n : nat) :
  (n = 2 * (n / 2) + n mod 2 /\ n mod 2 < 2)%nat.
Proof.
  split; [apply Nat.div_mod_eq | apply Nat.mod_upper_bound; lia].
Qed.

Lemma process_chunk_profile_length (self : NoiseReducer)
    (chunk profile : Np.array) :
  noise_profile self = Some profile ->
  length profile = length chunk ->
  (2 <= length chunk)%nat ->
  exists out,
    process_chunk self chunk = Ok out /\
    length out = (2 * (length chunk / 2))%nat.
Proof.
  intros Hprof Hlen Hge.
  set (filtered := Signal.lfilter (b self) (a self) chunk).
  assert (Hfl : length filtered = length chunk) by apply lfilter_length.
  assert (Hfne : filtered <> []).
  { intros E. rewrite E in Hfl. simpl in Hfl. lia. }
  destruct (spectral_subtraction_ok filtered profile Hfne)
    as [chunk_spec [noise_spec [Hc [Hn [Hcl [Hnl Hss]]]]]]; [congruence |].
  unfold process_chunk. fold filtered. rewrite Hprof, Hss. cbn [bind].
  match goal with |- context [Np.irfft ?X] => set (clean_spec := X) end.
  assert (Hcs : length clean_spec = (length chunk / 2 + 1)%nat).
  { unfold clean_spec. rewrite map_combine_length.
    - rewrite floor_at_zero_length, abs_length; [congruence |].
      rewrite !abs_length. exact Hnl.
    - rewrite floor_at_zero_length, abs_length, phase_length;
        [reflexivity |].
      rewrite !abs_length. exact Hnl. }
  destruct (half_bounds (length chunk)) as [Hdiv Hmod].
  rewrite irfft_ok by lia. cbn [bind].
  eexists. split; [reflexivity |].
  rewrite clip_length, length_map, length_seq, Hcs. lia.
Qed.

Lemma process_chunk_profile_single (self : NoiseReducer)
    (chunk profile : Np.array) :
  noise_profile self = Some profile ->
  length profile = length chunk ->
  (length chunk <= 1)%nat ->
  process_chunk self chunk = Err ValueError.
Proof.
  intros Hprof Hlen Hle.
  destruct chunk as [|x [|x' chunk]]; [| | simpl in Hle; lia].
  - unfold process_chunk. rewrite Hprof. reflexivity.
  - set (filtered := Signal.lfilter (b self) (a self) [x]).
    assert (Hfl : length filtered = 1%nat) by apply lfilter_length.
    assert (Hfne : filtered <> []).
    { intros E. rewrite E in Hfl. discriminate. }
    destruct (spectral_subtraction_ok filtered profile Hfne)
      as [chunk_spec [noise_spec [Hc [Hn [Hcl [Hnl Hss]]]]]];
      [simpl in Hlen; congruence |].
    unfold process_chunk. fold filtered. rewrite Hprof, Hss. cbn [bind].
    rewrite irfft_short; [reflexivity |].
    rewrite map_combine_length.
    + rewrite floor_at_zero_length, abs_length, Hcl, Hfl; [simpl; lia |].
      rewrite !abs_length. exact Hnl.
    + rewrite floor_at_zero_length, abs_length, phase_length;
        [reflexivity |].
      rewrite !abs_length. exact Hnl.
Qed.

Lemma process_chunk_profile_even (self : NoiseReducer)
    (chunk profile out : Np.array) :
  noise_profile self = Some profile ->
  process_chunk self chunk = Ok out ->
  Nat.even (length out) = true.
Proof.
  intros Hprof. unfold process_chunk. rewrite Hprof.
  destruct (spectral_subtraction _ profile) as [cs|]; cbn [bind];
    [|discriminate].
  destruct (Np.irfft cs) as [x|] eqn:Hi; cbn [bind]; [|discriminate].
  intros H; inversion H; subst.
  apply irfft_length in Hi. destruct Hi as [_ Hx].
  rewrite clip_length, Hx. apply Nat.even_spec. now exists (length cs - 1)%nat.
Qed.

(** C10, as stated, fails for a chunk of length one: its spectrum has a
    single bin, the inverse transform is asked for zero samples and rejects
    that; no chunk of length zero is returned. *)
Lemma single_sample_chunk_rejected :
  Nat.odd (length [0.5]) = true /\
  noise_profile single_sample = Some [0.25] /\
  process_chunk single_sample [0.5] = Err ValueError.
Proof.
  split; [reflexivity |]. split; [reflexivity |].
  apply (process_chunk_profile_single single_sample [0.5] [0.25]);
    [reflexivity | reflexivity | simpl; lia].
Qed.

(** C10, amended: with a noise profile as long as the chunk, a chunk of odd
    length at least three comes back one sample shorter, a chunk of even
    length at least two comes back with its length, and a chunk of length
    one or zero is rejected with [ValueError]; with any noise profile, a
    chunk that comes back with its own length has even length. *)
Theorem process_chunk_length (self : NoiseReducer)
    (chunk profile : Np.array) :
  noise_profile self = Some profile ->
  (length profile = length chunk ->
   (Nat.odd (length chunk) = true -> (3 <= length chunk)%nat ->
    exists out,
      process_chunk self chunk = Ok out /\
      length out = (length chunk - 1)%nat) /\
   (Nat.even (length chunk) = true -> (2 <= length chunk)%nat ->
    exists out,
      process_chunk self chunk = Ok out /\ length out = length chunk) /\
   ((length chunk <= 1)%nat ->
    process_chunk self chunk = Err ValueError)) /\
  (forall out,
     process_chunk self chunk = Ok out ->
     Nat.even (length out) = true /\
     (length out = length chunk -> Nat.even (length chunk) = true)).
Proof.
  intros Hprof. split.
  - intros Hlen.
    destruct (half_bounds (length chunk)) as [Hdiv Hmod].
    split; [| split].
    + intros Hodd Hge.
      destruct (process_chunk_profile_length self chunk profile Hprof Hlen)
        as [out [Hrun Hout]]; [lia |].
      exists out. split; [exact Hrun |].
      apply Nat.odd_spec in Hodd. destruct Hodd as [m Hm]. lia.
    + intros Heven Hge.
      destruct (process_chunk_profile_length self chunk profile Hprof Hlen)
        as [out [Hrun Hout]]; [lia |].
      exists out. split; [exact Hrun |].
      apply Nat.even_spec in Heven. destruct Heven as [m Hm]. lia.
    + intros Hle. eapply process_chunk_profile_single; eauto.
  - intros out Hrun.
    pose proof (process_chunk_profile_even self chunk profile out Hprof Hrun)
      as Heven.
    split; [exact Heven |]. intros E. now rewrite <- E.
Qed.

(** A chunk and a profile of three samples: two samples come back. *)
Lemma process_chunk_length_witness :
  exists out,
    process_chunk calibrated3 [0.5; 0.25; -0.5] = Ok out /\
    length out = 2%nat.
Proof.
  exact (proj1 (proj1 (process_chunk_length calibrated3 [0.5; 0.25; -0.5]
                         [0.25; -0.25; 0] eq_refl) eq_refl)
           eq_refl (le_n 3)).
Defined.

(** ** The mode parameter *)

Lemma process_chunk_mode (m : string) (self : NoiseReducer)
    (chunk : Np.array) :
  process_chunk (set_mode m self) chunk = process_chunk self chunk.
Proof. reflexivity. Qed.

Lemma callback_mode (m : string) (self : NoiseReducer) (in_data : Np.array) :
  callback (set_mode m self) in_data
  = option_map (set_mode m) (callback self in_data).
Proof.
  unfold callback. rewrite process_chunk_mode. simpl.
  destruct (recording self); simpl.
  - destruct (process_chunk self in_data); reflexivity.
  - destruct (is_calibrating self); [| reflexivity].
    destruct (length (audio_queue self) <? maxsize)%nat; reflexivity.
Qed.

Lemma deliver_mode (m : string) (chunks : list Np.array) :
  forall self,
    deliver (set_mode m self) chunks
    = option_map (set_mode m) (deliver self chunks).
Proof.
  induction chunks as [|c rest IH]; intros self; simpl.
  - reflexivity.
  - rewrite callback_mode.
    destruct (callback self c) as [s1|]; simpl; [apply IH | reflexivity].
Qed.

Lemma poll_loop_mode (m : string) (needed : Z) (deadline : R)
    (ps : list poll) :
  forall self acc,
    poll_loop needed deadline (set_mode m self) acc ps
    = option_map (fun r => (set_mode m (fst r), snd r))
        (poll_loop needed deadline self acc ps).
Proof.
  induction ps as [|p ps IH]; intros self acc; simpl;
    destruct (Z.of_nat (length acc) <? needed)%Z; try reflexivity.
  destruct (Rlt_dec (elapsed p) deadline); [| reflexivity].
  rewrite deliver_mode.
  destruct (deliver self (arrivals p)) as [s1|]; simpl; [| reflexivity].
  destruct (audio_queue s1) as [|chunk q]; [apply IH |].
  apply (IH (set_audio_queue q s1)).
Qed.

Lemma calibrate_finish_mode (m : string) (self : NoiseReducer)
    (noise_chunks : list Np.array) :
  calibrate_finish (set_mode m self) noise_chunks
  = lift_mode m (calibrate_finish self noise_chunks).
Proof.
  unfold calibrate_finish. destruct noise_chunks as [|c cs]; [reflexivity |].
  destruct (Np.vstack (c :: cs)); reflexivity.
Qed.

Lemma calibrate_noise_mode (m : string) (self : NoiseReducer) (duration : R)
    (dev : calibration) :
  calibrate_noise (set_mode m self) duration dev
  = option_map (lift_mode m) (calibrate_noise self duration dev).
Proof.
  unfold calibrate_noise.
  change (calibrate_begin (set_mode m self))
    with (set_mode m (calibrate_begin self)).
  change (chunks_needed (set_mode m (calibrate_begin self)) duration)
    with (chunks_needed (calibrate_begin self) duration).
  destruct (chunks_needed (calibrate_begin self) duration) as [needed|e];
    [| reflexivity].
  rewrite poll_loop_mode.
  destruct (poll_loop needed (duration + 0.5) (calibrate_begin self) []
              (polls dev)) as [[s1 chunks]|]; simpl; [| reflexivity].
  rewrite deliver_mode.
  destruct (deliver s1 (late dev)) as [s2|]; simpl; [| reflexivity].
  now rewrite calibrate_finish_mode.
Qed.

Lemma record_finish_mode (m : string) (filename : string)
    (self : NoiseReducer) :
  record_finish filename (set_mode m self)
  = lift_mode m (record_finish filename self).
Proof.
  unfold record_finish. simpl.
  destruct (output_frames self); reflexivity.
Qed.

Lemma record_mode (m : string) (self : NoiseReducer) (duration : R)
    (filename : string) (during after : list Np.array) :
  record (set_mode m self) duration filename during after
  = option_map (lift_mode m) (record self duration filename during after).
Proof.
  unfold record.
  change (record_begin filename (set_mode m self))
    with (set_mode m (record_begin filename self)).
  destruct (Rlt_dec duration 0); [reflexivity |].
  rewrite deliver_mode.
  destruct (deliver (record_begin filename self) during) as [s1|]; simpl;
    [| reflexivity].
  change (set_recording false (set_mode m s1))
    with (set_mode m (set_recording false s1)).
  rewrite deliver_mode.
  destruct (deliver (set_recording false s1) after) as [s2|]; simpl;
    [| reflexivity].
  now rewrite record_finish_mode.
Qed.

Lemma observe_lift (m : string) (r : option (outcome * NoiseReducer)) :
  option_map observe (option_map (lift_mode m) r) = option_map observe r.
Proof. destruct r as [[out s]|]; reflexivity. Qed.

(** C8: two objects that differ in [mode] only denoise every chunk alike,
    collect the same output frames from the same deliveries, and end every
    recording and every calibration alike: same outcome, same file, same
    noise profile, same frames.  The constructor stores the mode and reads
    it for nothing else. *)
Theorem mode_is_inert (self : NoiseReducer) (m1 m2 : string) :
  (forall chunk,
     process_chunk (set_mode m1 self) chunk
     = process_chunk (set_mode m2 self) chunk) /\
  (forall chunks,
     option_map output_frames (deliver (set_mode m1 self) chunks)
     = option_map output_frames (deliver (set_mode m2 self) chunks)) /\
  (forall duration filename during after,
     option_map observe
       (record (set_mode m1 self) duration filename during after)
     = option_map observe
         (record (set_mode m2 self) duration filename during after)) /\
  (forall duration dev,
     option_map observe (calibrate_noise (set_mode m1 self) duration dev)
     = option_map observe (calibrate_noise (set_mode m2 self) duration dev)) /\
  (forall butter chunk_size sample_rate,
     init butter m1 chunk_size sample_rate
     = bind (init butter m2 chunk_size sample_rate)
         (fun s => Ok (set_mode m1 s))).
Proof.
  repeat split.
  - intros chunks. rewrite !deliver_mode.
    destruct (deliver self chunks); reflexivity.
  - intros duration filename during after.
    now rewrite !record_mode, !observe_lift.
  - intros duration dev.
    now rewrite !calibrate_noise_mode, !observe_lift.
  - intros butter chunk_size sample_rate. unfold init.
    destruct (sample_rate =? 0)%Z; [reflexivity |].
    destruct (butter 4%nat _ _) as [ba|e]; reflexivity.
Qed.

(** ** Which chunks [process_chunk] accepts *)

Lemma rfft_err (x : Np.array) (e : exn) :
  Np.rfft x = Err e -> e = ValueError /\ x = [].
Proof.
  destruct x; simpl; intros H; inversion H; split; reflexivity.
Qed.

Lemma irfft_err (X : list Np.complex) (e : exn) :
  Np.irfft X = Err e -> e = ValueError.
Proof.
  unfold Np.irfft.
  destruct (2 * (length X - 1) <? 1)%nat; intros H; inversion H; reflexivity.
Qed.

Lemma broadcast2_err {A B C : Type} (f : A -> B -> C)
    (xs : list A) (ys : list B) (e : exn) :
  Np.broadcast2 f xs ys = Err e -> e = ValueError.
Proof.
  unfold Np.broadcast2.
  destruct (length xs =? length ys)%nat; [discriminate |].
  destruct xs as [|x [|x' xs]]; destruct ys as [|y [|y' ys]];
    intros H; inversion H; reflexivity.
Qed.

Lemma broadcast2_stretch {A B C : Type} (f : A -> B -> C)
    (xs : list A) (ys : list B) :
  length xs = length ys \/ length xs = 1%nat \/ length ys = 1%nat ->
  exists zs,
    Np.broadcast2 f xs ys = Ok zs /\
    length zs = (if (length xs =? 1)%nat then length ys else length xs).
Proof.
  intros Hshape. unfold Np.broadcast2.
  destruct (Nat.eqb_spec (length xs) (length ys)) as [Heq|Hne].
  - eexists. split; [reflexivity |].
    rewrite length_map, length_combine, <- Heq, Nat.min_id.
    destruct (Nat.eqb_spec (length xs) 1); congruence.
  - destruct Hshape as [H|[H|H]]; [contradiction | |].
    + destruct xs as [|x [|x' xs]]; try discriminate.
      eexists. split; [reflexivity |]. now rewrite length_map.
    + destruct ys as [|y [|y' ys]]; try discriminate.
      destruct xs as [|x [|x' xs]].
      * eexists. split; reflexivity.
      * simpl in Hne. congruence.
      * eexists. split; [reflexivity |]. now rewrite length_map.
Qed.

Lemma broadcast2_mismatch {A B C : Type} (f : A -> B -> C)
    (xs : list A) (ys : list B) :
  length xs <> length ys -> length xs <> 1%nat -> length ys <> 1%nat ->
  Np.broadcast2 f xs ys = Err ValueError.
Proof.
  intros Hne Hx Hy. unfold Np.broadcast2.
  destruct (Nat.eqb_spec (length xs) (length ys)); [contradiction |].
  destruct xs as [|x [|x' xs]]; destruct ys as [|y [|y' ys]];
    simpl in *; congruence.
Qed.

Lemma spectral_subtraction_err (filtered profile : Np.array) (e : exn) :
  spectral_subtraction filtered profile = Err e -> e = ValueError.
Proof.
  unfold spectral_subtraction, clean_magnitude.
  destruct (Np.rfft filtered) as [cs|e1] eqn:Hc; cbn [bind];
    [| intros H; inversion H; subst; now apply rfft_err in Hc].
  destruct (Np.rfft profile) as [ns|e2] eqn:Hn; cbn [bind];
    [| intros H; inversion H; subst; now apply rfft_err in Hn].
  destruct (Np.broadcast2 Rminus (Np.abs cs) (Np.abs ns)) as [d|e3] eqn:Hd;
    cbn [bind];
    [| intros H; inversion H; subst; now apply broadcast2_err in Hd].
  apply broadcast2_err.
Qed.

(** X1: [process_chunk] raises nothing but [ValueError], and raises only
    when a noise profile is present. *)
Theorem process_chunk_raises (self : NoiseReducer) (chunk : Np.array)
    (e : exn) :
  process_chunk self chunk = Err e ->
  e = ValueError /\ noise_profile self <> None.
Proof.
  unfold process_chunk. destruct (noise_profile self) as [profile|].
  - intros H. split; [| discriminate].
    destruct (spectral_subtraction _ profile) as [cs|e1] eqn:Hs;
      cbn [bind] in H.
    + destruct (Np.irfft cs) as [x|e2] eqn:Hi; cbn [bind] in H;
        inversion H; subst. now apply irfft_err in Hi.
    + inversion H; subst. now apply spectral_subtraction_err in Hs.
  - discriminate.
Qed.

(** A one-sample chunk with a one-sample profile is rejected. *)
Lemma process_chunk_raises_witness :
  noise_profile single_sample <> None.
Proof.
  refine (proj2 (process_chunk_raises single_sample [0.5] ValueError _)).
  apply (process_chunk_profile_single single_sample [0.5] [0.25]);
    [reflexivity | reflexivity | simpl; lia].
Defined.

Lemma maximum_length (x : Np.array) (s : R) :
  length (Np.maximum x s) = length x.
Proof. apply length_map. Qed.

Lemma spectral_subtraction_shape (filtered profile : Np.array) :
  filtered <> [] -> profile <> [] ->
  let bN := (length filtered / 2 + 1)%nat in
  let bM := (length profile / 2 + 1)%nat in
  (bN = bM \/ bN = 1%nat \/ bM = 1%nat ->
   exists cs,
     spectral_subtraction filtered profile = Ok cs /\
     length cs = Nat.max bN bM) /\
  (bN <> bM -> bN <> 1%nat -> bM <> 1%nat ->
   spectral_subtraction filtered profile = Err ValueError).
Proof.
  intros Hf Hp bN bM. unfold bN, bM. clear bN bM.
  pose proof (rfft_ok filtered Hf) as Hc.
  pose proof (rfft_ok profile Hp) as Hn.
  destruct (rfft_length _ _ Hc) as [_ Hcl].
  destruct (rfft_length _ _ Hn) as [_ Hnl].
  unfold spectral_subtraction, clean_magnitude. rewrite Hc, Hn. cbn [bind].
  remember (map (Np.rfft_bin filtered) (seq 0 (length filtered / 2 + 1)))
    as chunk_spec eqn:Ec.
  remember (map (Np.rfft_bin profile) (seq 0 (length profile / 2 + 1)))
    as noise_spec eqn:En.
  clear Ec En Hc Hn.
  split.
  - intros Hshape.
    destruct (broadcast2_stretch Rminus (Np.abs chunk_spec)
                (Np.abs noise_spec)) as [d [Hd Hdl]].
    { rewrite !abs_length, Hcl, Hnl. exact Hshape. }
    rewrite Hd. cbn [bind].
    rewrite !abs_length in Hdl.
    destruct (broadcast2_stretch Np.scale (Np.maximum d 0)
                (Np.expj (Np.angle chunk_spec))) as [cs [Hcs Hcsl]].
    { rewrite maximum_length, phase_length, Hdl.
      destruct (Nat.eqb_spec (length chunk_spec) 1);
        [right; right; assumption | left; reflexivity]. }
    exists cs. split; [exact Hcs |].
    rewrite maximum_length, phase_length, Hdl in Hcsl. rewrite Hcsl.
    rewrite <- Hcl, <- Hnl.
    destruct (Nat.eqb_spec (length chunk_spec) 1) as [H1|H1].
    + destruct (Nat.eqb_spec (length noise_spec) 1); lia.
    + destruct (Nat.eqb_spec (length chunk_spec) 1); lia.
  - intros Hne H1 H2.
    rewrite broadcast2_mismatch; [reflexivity | | |];
      rewrite !abs_length; congruence.
Qed.

Lemma process_chunk_shape_cases (self : NoiseReducer)
    (chunk profile : Np.array) :
  noise_profile self = Some profile ->
  (shapes_accepted (length chunk) (length profile) ->
   exists out,
     process_chunk self chunk = Ok out /\
     length out =
       (2 * Nat.max (length chunk / 2) (length profile / 2))%nat) /\
  (~ shapes_accepted (length chunk) (length profile) ->
   process_chunk self chunk = Err ValueError).
Proof.
  intros Hprof.
  set (filtered := Signal.lfilter (b self) (a self) chunk).
  assert (Hfl : length filtered = length chunk) by apply lfilter_length.
  destruct (half_bounds (length chunk)) as [HdN HmN].
  destruct (half_bounds (length profile)) as [HdM HmM].
  unfold shapes_accepted, process_chunk. fold filtered. rewrite Hprof.
  destruct chunk as [|x0 chunk'] eqn:Echunk.
  { split; [simpl; lia | intros _; reflexivity]. }
  assert (Hf : filtered <> []).
  { intros E. rewrite E in Hfl. discriminate. }
  destruct profile as [|p0 profile'] eqn:Eprof.
  { split; [simpl; lia |]. intros _.
    unfold spectral_subtraction.
    rewrite (rfft_ok filtered Hf). reflexivity. }
  assert (Hp : p0 :: profile' <> []) by discriminate.
  rewrite <- Eprof in *. rewrite <- Echunk in *.
  assert (HN : (1 <= length chunk)%nat) by (rewrite Echunk; simpl; lia).
  assert (HM : (1 <= length profile)%nat) by (rewrite Eprof; simpl; lia).
  destruct (spectral_subtraction_shape filtered profile Hf Hp)
    as [Hok Hbad].
  rewrite Hfl in Hok, Hbad.
  split.
  - intros [_ [_ [Hcompat Hbins]]].
    destruct Hok as [cs [Hcs Hlen]]; [lia |].
    rewrite Hcs. cbn [bind].
    rewrite irfft_ok by lia. cbn [bind].
    eexists. split; [reflexivity |].
    rewrite clip_length, length_map, length_seq, Hlen. lia.
  - intros Hnot.
    destruct (Nat.eq_dec (length chunk / 2) (length profile / 2))
      as [Heq|Hne].
    + destruct Hok as [cs [Hcs Hlen]]; [lia |].
      rewrite Hcs. cbn [bind].
      rewrite irfft_short; [reflexivity | lia].
    + destruct (Nat.eq_dec (length profile) 1) as [HM1|HM1].
      { destruct Hok as [cs [Hcs Hlen]]; [lia |].
        rewrite Hcs. cbn [bind].
        rewrite irfft_short; [reflexivity | lia]. }
      destruct (Nat.eq_dec (length chunk) 1) as [HN1|HN1].
      { destruct Hok as [cs [Hcs Hlen]]; [lia |].
        rewrite Hcs. cbn [bind].
        rewrite irfft_short; [reflexivity | lia]. }
      rewrite Hbad by lia. reflexivity.
Qed.

(** X2: with a noise profile present, [process_chunk] returns a chunk
    exactly for the accepted pairs of chunk length [N] and profile length
    [M], and what it returns has length [2 * max (N / 2) (M / 2)]; for
    every other pair it raises [ValueError]. *)
Theorem process_chunk_shape (self : NoiseReducer)
    (chunk profile : Np.array) :
  noise_profile self = Some profile ->
  (shapes_accepted (length chunk) (length profile) ->
   exists out,
     process_chunk self chunk = Ok out /\
     length out =
       (2 * Nat.max (length chunk / 2) (length profile / 2))%nat) /\
  (~ shapes_accepted (length chunk) (length profile) ->
   process_chunk self chunk = Err ValueError).
Proof.
  intros Hprof.
  destruct (process_chunk_shape_cases self chunk profile Hprof)
    as [Haccepted Hrejected].
  split.
  - intros Hshape. destruct (Haccepted Hshape) as [out [Hrun Hlen]].
    exists out. split; [exact Hrun | exact Hlen].
  - intros Hshape. exact (Hrejected Hshape).
Qed.

(** A chunk of three samples with a profile of one sample: the single bin
    of the profile is stretched, two samples come back. *)
Lemma process_chunk_shape_witness :
  exists out,
    process_chunk single_sample [0.5; 0.25; -0.5] = Ok out /\
    length out = 2%nat.
Proof.
  refine (proj1 (process_chunk_shape single_sample [0.5; 0.25; -0.5]
                   [0.25] eq_refl) _).
  unfold shapes_accepted. simpl. lia.
Defined.

(** ** Silence and full cancellation *)

Lemma sum_list_zero (l : list R) :
  Forall (fun x => x = 0) l -> Np.sum_list l = 0.
Proof.
  unfold Np.sum_list. induction 1 as [|x l Hx _ IH]; simpl.
  - reflexivity.
  - rewrite Hx, IH. lra.
Qed.

Lemma dot_zero_history (c h : list R) :
  Forall (fun x => x = 0) h -> Signal.dot c h = 0.
Proof.
  intros Hh. revert c. induction Hh as [|x h Hx _ IH]; intros [|c0 c];
    simpl; try reflexivity.
  rewrite Hx, IH. lra.
Qed.

Lemma lfilter_from_zeros (b a : list R) (n : nat) :
  forall xh yh,
    Forall (fun x => x = 0) xh -> Forall (fun y => y = 0) yh ->
    Signal.lfilter_from b a xh yh (repeat 0 n) = repeat 0 n.
Proof.
  induction n as [|n IH]; intros xh yh Hx Hy; simpl.
  - reflexivity.
  - assert (H0 : (Signal.dot b (0 :: xh) - Signal.dot (tl a) yh) / hd 0 a
                 = 0).
    { rewrite (dot_zero_history b (0 :: xh)) by (constructor; auto).
      rewrite (dot_zero_history (tl a) yh) by exact Hy.
      unfold Rdiv. rewrite Rminus_diag. apply Rmult_0_l. }
    rewrite H0. f_equal. apply IH; constructor; auto.
Qed.

Lemma lfilter_zeros (b a : list R) (n : nat) :
  Signal.lfilter b a (repeat 0 n) = repeat 0 n.
Proof. apply lfilter_from_zeros; constructor. Qed.

Lemma clip_zeros (n : nat) : Np.clip (repeat 0 n) (-1) 1 = repeat 0 n.
Proof.
  unfold Np.clip. induction n as [|n IH]; simpl; [reflexivity |].
  rewrite IH. f_equal.
  unfold Rmin, Rmax.
  destruct (Rle_dec 0 (-1)); [lra |]. destruct (Rle_dec 0 1); lra.
Qed.

Lemma map_constant {A B : Type} (f : A -> B) (y : B) (l : list A) :
  (forall x, In x l -> f x = y) -> map f l = repeat y (length l).
Proof.
  induction l as [|x l IH]; intros H; simpl; [reflexivity |].
  rewrite (H x) by (left; reflexivity).
  f_equal. apply IH. intros x' Hx'. apply H. now right.
Qed.

Lemma rfft_bin_zeros (n k : nat) :
  Np.rfft_bin (repeat 0 n) k = (0, 0).
Proof.
  unfold Np.rfft_bin.
  assert (Hterm : forall (g : nat -> R) (p : nat * R),
             In p (combine (seq 0 (length (repeat 0 n))) (repeat 0 n)) ->
             snd p * g (fst p) = 0).
  { intros g [i x] Hin. apply in_combine_r in Hin.
    apply repeat_spec in Hin. simpl. subst. apply Rmult_0_l. }
  rewrite !sum_list_zero.
  - now rewrite Ropp_0.
  - apply Forall_forall. intros y Hy. apply in_map_iff in Hy.
    destruct Hy as [p [<- Hp]].
    apply (Hterm (fun i => sin (2 * PI * INR k * INR i
                                / INR (length (repeat 0 n)))) p Hp).
  - apply Forall_forall. intros y Hy. apply in_map_iff in Hy.
    destruct Hy as [p [<- Hp]].
    apply (Hterm (fun i => cos (2 * PI * INR k * INR i
                                / INR (length (repeat 0 n)))) p Hp).
Qed.

Lemma cabs_zero : Np.cabs (0, 0) = 0.
Proof.
  unfold Np.cabs. simpl. rewrite Rmult_0_l, Rplus_0_l. apply sqrt_0.
Qed.

Lemma floor_at_zero_dominated (chunk_mag : Np.array) :
  forall noise_mag,
    Forall2 Rle chunk_mag noise_mag ->
    floor_at_zero chunk_mag noise_mag = repeat 0 (length chunk_mag).
Proof.
  unfold floor_at_zero.
  induction chunk_mag as [|c cm IH]; intros noise_mag Hle;
    inversion Hle; subst; simpl; [reflexivity |].
  rewrite IH by assumption. f_equal.
  unfold Rmax. destruct (Rle_dec (c - y) 0); lra.
Qed.

Lemma scale_zeros (n : nat) :
  forall phases,
    length phases = n ->
    map (fun p => Np.scale (fst p) (snd p)) (combine (repeat 0 n) phases)
    = repeat (0, 0) n.
Proof.
  induction n as [|n IH]; intros [|z phases] Hlen; simpl in *;
    try discriminate; [reflexivity |].
  rewrite IH by lia. unfold Np.scale. simpl. now rewrite !Rmult_0_l.
Qed.

Lemma in_firstn {A : Type} (n : nat) (l : list A) (x : A) :
  In x (firstn n l) -> In x l.
Proof.
  intros H. rewrite <- (firstn_skipn n l). apply in_or_app. now left.
Qed.

Lemma irfft_zeros (m : nat) :
  (2 <= m)%nat ->
  Np.irfft (repeat (0, 0) m) = Ok (repeat 0 (2 * (m - 1))).
Proof.
  intros Hm. rewrite irfft_ok by (rewrite repeat_length; exact Hm).
  rewrite repeat_length. f_equal.
  replace (repeat 0 (2 * (m - 1)))
    with (repeat 0 (length (seq 0 (2 * (m - 1)))))
    by (now rewrite length_seq).
  apply map_constant. intros j _. unfold Np.irfft_sample, Np.complex.
  match goal with
  | |- context [fst (hd ?d ?l)] =>
      assert (Hhd : fst (hd d l) = 0) by (destruct m; reflexivity)
  end.
  match goal with
  | |- context [fst (last ?l ?d)] =>
      assert (Hlast : fst (last l d) = 0)
  end.
  { clear. induction m as [|m IH]; [reflexivity |].
    simpl. destruct m; [reflexivity | exact IH]. }
  rewrite Hhd, Hlast, sum_list_zero.
  - unfold Rdiv. rewrite Rmult_0_l, !Rplus_0_l. apply Rmult_0_l.
  - apply Forall_forall. intros y Hy. apply in_map_iff in Hy.
    destruct Hy as [[k z] [<- Hin]].
    apply in_combine_r in Hin. apply in_firstn in Hin.
    assert (Hz : z = (0, 0)).
    { destruct m; simpl in Hin; [contradiction |].
      now apply repeat_spec in Hin. }
    subst z. simpl. lra.
Qed.

Lemma dominated_spectrum_cancels (self : NoiseReducer)
    (chunk profile : Np.array) (chunk_spec noise_spec : list Np.complex) :
  noise_profile self = Some profile ->
  length profile = length chunk ->
  (2 <= length chunk)%nat ->
  Np.rfft (Signal.lfilter (b self) (a self) chunk) = Ok chunk_spec ->
  Np.rfft profile = Ok noise_spec ->
  Forall2 Rle (Np.abs chunk_spec) (Np.abs noise_spec) ->
  process_chunk self chunk = Ok (repeat 0 (2 * (length chunk / 2))).
Proof.
  intros Hprof Hlen Hge Hc Hn Hdom.
  set (filtered := Signal.lfilter (b self) (a self) chunk) in *.
  assert (Hfl : length filtered = length chunk) by apply lfilter_length.
  assert (Hfne : filtered <> []).
  { intros E. rewrite E in Hfl. simpl in Hfl. lia. }
  destruct (spectral_subtraction_ok filtered profile Hfne)
    as [cs [ns [Hc' [Hn' [Hcl [Hnl Hss]]]]]]; [congruence |].
  rewrite Hc in Hc'. rewrite Hn in Hn'.
  inversion Hc'; inversion Hn'; subst cs ns.
  unfold process_chunk. fold filtered. rewrite Hprof, Hss. cbn [bind].
  rewrite floor_at_zero_dominated by exact Hdom.
  rewrite scale_zeros by (rewrite abs_length, phase_length; reflexivity).
  rewrite abs_length, Hcl, Hfl.
  destruct (half_bounds (length chunk)) as [Hdiv Hmod].
  rewrite irfft_zeros by lia. cbn [bind].
  rewrite clip_zeros. do 2 f_equal. lia.
Qed.


Lemma Forall2_Rle_refl (l : list R) : Forall2 Rle l l.
Proof. induction l; constructor; [apply Rle_refl | assumption]. Qed.

(** X3: when the noise profile, as long as the chunk, is at least as strong
    as the filtered chunk in every frequency bin, nothing is left: the
    output is all zeros.  This is so in particular when the profile is the
    filtered chunk itself. *)
Theorem process_chunk_cancels (self : NoiseReducer)
    (chunk profile : Np.array) :
  noise_profile self = Some profile ->
  length profile = length chunk ->
  (2 <= length chunk)%nat ->
  (forall chunk_spec noise_spec,
     Np.rfft (Signal.lfilter (b self) (a self) chunk) = Ok chunk_spec ->
     Np.rfft profile = Ok noise_spec ->
     Forall2 Rle (Np.abs chunk_spec) (Np.abs noise_spec) ->
     process_chunk self chunk = Ok (repeat 0 (2 * (length chunk / 2)))) /\
  (profile = Signal.lfilter (b self) (a self) chunk ->
   process_chunk self chunk = Ok (repeat 0 (2 * (length chunk / 2)))).
Proof.
  intros Hprof Hlen Hge. split.
  - intros chunk_spec noise_spec Hc Hn Hdom.
    eapply dominated_spectrum_cancels; eauto.
  - intros Hsame.
    assert (Hpne : profile <> []).
    { intros E. rewrite E in Hlen. simpl in Hlen. lia. }
    pose proof (rfft_ok profile Hpne) as Hn.
    eapply dominated_spectrum_cancels;
      [exact Hprof | exact Hlen | exact Hge
       | rewrite <- Hsame; exact Hn | exact Hn |].
    apply Forall2_Rle_refl.
Qed.

(** The profile is the chunk itself, behind the pass-through filter. *)
Lemma process_chunk_cancels_witness :
  process_chunk
    (set_noise_profile (Some (Signal.lfilter [1] [1] [0.5; 0.25])) reducer0)
    [0.5; 0.25]
  = Ok [0; 0].
Proof.
  exact (proj2 (process_chunk_cancels
                  (set_noise_profile
                     (Some (Signal.lfilter [1] [1] [0.5; 0.25])) reducer0)
                  [0.5; 0.25] (Signal.lfilter [1] [1] [0.5; 0.25])
                  eq_refl eq_refl (le_n 2)) eq_refl).
Defined.

Lemma zeros_without_profile (self : NoiseReducer) (n : nat) :
  noise_profile self = None ->
  process_chunk self (repeat 0 n) = Ok (repeat 0 n).
Proof.
  intros Hprof. unfold process_chunk.
  rewrite Hprof, lfilter_zeros, clip_zeros. reflexivity.
Qed.

Lemma zeros_with_profile (self : NoiseReducer) (n : nat)
    (profile : Np.array) :
  noise_profile self = Some profile ->
  length profile = n -> (2 <= n)%nat ->
  process_chunk self (repeat 0 n) = Ok (repeat 0 (2 * (n / 2))).
Proof.
  intros Hprof Hlen Hge.
  assert (Hpne : profile <> []).
  { intros E. rewrite E in Hlen. simpl in Hlen. lia. }
  assert (Hzne : Signal.lfilter (b self) (a self) (repeat 0 n) <> []).
  { rewrite lfilter_zeros. destruct n; [lia | discriminate]. }
  replace (2 * (n / 2))%nat
    with (2 * (length (repeat 0%R n) / 2))%nat
    by (now rewrite repeat_length).
  eapply dominated_spectrum_cancels;
    [ exact Hprof
    | rewrite repeat_length; exact Hlen
    | rewrite repeat_length; exact Hge
    | exact (rfft_ok _ Hzne)
    | exact (rfft_ok _ Hpne)
    | ].
  rewrite lfilter_zeros, repeat_length, Hlen.
  apply zeros_below.
  - now rewrite !abs_length, !length_map, !length_seq.
  - apply Forall_forall. intros m Hm. unfold Np.abs in Hm.
    apply in_map_iff in Hm. destruct Hm as [z [<- Hz]].
    apply in_map_iff in Hz. destruct Hz as [k [<- _]].
    rewrite rfft_bin_zeros. apply cabs_zero.
  - apply abs_nonneg.
Qed.

(** X4: silence in, silence out.  A chunk of zeros comes back as zeros:
    unchanged without a noise profile, and as [2 * (n / 2)] zeros with any
    noise profile of its length [n >= 2]. *)
Theorem process_chunk_silence (self : NoiseReducer) (n : nat) :
  match noise_profile self with
  | None => process_chunk self (repeat 0 n) = Ok (repeat 0 n)
  | Some profile =>
      length profile = n -> (2 <= n)%nat ->
      process_chunk self (repeat 0 n) = Ok (repeat 0 (2 * (n / 2)))
  end.
Proof.
  destruct (noise_profile self) as [profile|] eqn:Hprof.
  - intros Hlen Hge. eapply zeros_with_profile; eauto.
  - now apply zeros_without_profile.
Qed.

(** ** Where delivered chunks go *)

Lemma deliver_idle (chunks : list Np.array) (self : NoiseReducer) :
  recording self = false -> is_calibrating self = false ->
  deliver self chunks = Some self.
Proof.
  intros Hrec Hcal. induction chunks as [|c rest IH]; simpl.
  - reflexivity.
  - unfold callback. rewrite Hrec, Hcal. simpl. exact IH.
Qed.

Lemma deliver_queue (chunks : list Np.array) :
  forall self,
    recording self = false -> is_calibrating self = true ->
    (length (audio_queue self) + length chunks <= maxsize)%nat ->
    deliver self chunks
    = Some (set_audio_queue (audio_queue self ++ chunks) self).
Proof.
  induction chunks as [|c rest IH]; intros self Hrec Hcal Hroom; simpl.
  - rewrite app_nil_r. now destruct self.
  - unfold callback. rewrite Hrec, Hcal. simpl in *.
    destruct (Nat.ltb_spec (length (audio_queue self)) maxsize); [| lia].
    rewrite IH; simpl; try assumption.
    + now rewrite <- app_assoc.
    + rewrite length_app. simpl. lia.
Qed.

Lemma deliver_queue_full (chunks : list Np.array) :
  forall self,
    recording self = false -> is_calibrating self = true ->
    (maxsize < length (audio_queue self) + length chunks)%nat ->
    (length (audio_queue self) <= maxsize)%nat ->
    deliver self chunks = None.
Proof.
  induction chunks as [|c rest IH]; intros self Hrec Hcal Hover Hinv;
    simpl in *.
  - lia.
  - unfold callback. rewrite Hrec, Hcal. simpl.
    destruct (Nat.ltb_spec (length (audio_queue self)) maxsize);
      [| reflexivity].
    apply IH; simpl; try assumption; rewrite length_app; simpl; lia.
Qed.

Lemma deliver_recording_account (chunks : list Np.array) :
  forall self self',
    recording self = true ->
    deliver self chunks = Some self' ->
    audio_queue self' = audio_queue self /\
    exists frames errors,
      output_frames self' = output_frames self ++ frames /\
      log self' = log self ++ errors /\
      (length frames + length errors = length chunks)%nat.
Proof.
  induction chunks as [|c rest IH]; intros self self' Hrec H; simpl in H.
  - inversion H; subst. split; [reflexivity |].
    exists [], []. now rewrite !app_nil_r.
  - unfold callback in H. rewrite Hrec in H. simpl in H.
    destruct (process_chunk self c) as [processed|e].
    + apply IH in H; [| exact Hrec].
      destruct H as [Hq [frames [errors [Hf [Hl Hn]]]]].
      split; [exact Hq |].
      exists (processed :: frames), errors. simpl in *.
      rewrite Hf, <- app_assoc. repeat split; auto.
    + apply IH in H; [| exact Hrec].
      destruct H as [Hq [frames [errors [Hf [Hl Hn]]]]].
      split; [exact Hq |].
      exists frames, (ErrorInCallback e :: errors). simpl in *.
      rewrite Hl, <- app_assoc. repeat split; auto. lia.
Qed.

(** X5: what becomes of a burst of chunks from the device.  Outside any
    session they are ignored.  During a calibration (and no recording) they
    are queued in order if the queue of 100 has room for all of them, and
    the callback does not return otherwise.  During a recording every chunk
    gives either one more output frame or one more logged error, none is
    lost, and the queue is not touched. *)
Theorem deliver_routes (self : NoiseReducer) (chunks : list Np.array) :
  if recording self then
    exists self' frames errors,
      deliver self chunks = Some self' /\
      audio_queue self' = audio_queue self /\
      output_frames self' = output_frames self ++ frames /\
      log self' = log self ++ errors /\
      (length frames + length errors = length chunks)%nat
  else if is_calibrating self then
    (length (audio_queue self) <= maxsize)%nat ->
    if (length (audio_queue self) + length chunks <=? maxsize)%nat then
      deliver self chunks
      = Some (set_audio_queue (audio_queue self ++ chunks) self)
    else deliver self chunks = None
  else deliver self chunks = Some self.
Proof.
  destruct (recording self) eqn:Hrec.
  - destruct (deliver_recording chunks self Hrec) as [self' [Hd _]].
    destruct (deliver_recording_account chunks self self' Hrec Hd)
      as [Hq [frames [errors [Hf [Hl Hn]]]]].
    exists self', frames, errors. auto.
  - destruct (is_calibrating self) eqn:Hcal.
    + intros Hinv.
      destruct (Nat.leb_spec (length (audio_queue self) + length chunks)
                  maxsize).
      * now apply deliver_queue.
      * now apply deliver_queue_full.
    + now apply deliver_idle.
Qed.

(** ** The size of the queue *)

Lemma callback_queue_bounded (self self' : NoiseReducer)
    (in_data : Np.array) :
  queue_bounded self -> callback self in_data = Some self' ->
  queue_bounded self'.
Proof.
  unfold queue_bounded, callback. intros Hinv H.
  destruct (recording self); simpl in H.
  - destruct (process_chunk self in_data); inversion H; subst; exact Hinv.
  - destruct (is_calibrating self); [| inversion H; subst; exact Hinv].
    destruct (Nat.ltb_spec (length (audio_queue self)) maxsize);
      inversion H; subst; simpl.
    rewrite length_app. simpl. lia.
Qed.

Lemma deliver_queue_bounded (chunks : list Np.array) :
  forall self self',
    queue_bounded self -> deliver self chunks = Some self' ->
    queue_bounded self'.
Proof.
  induction chunks as [|c rest IH]; simpl; intros self self' Hinv H.
  - inversion H; subst; exact Hinv.
  - destruct (callback self c) as [s1|] eqn:Hcb; [| discriminate].
    eapply IH; [eapply callback_queue_bounded; eauto | exact H].
Qed.

Lemma poll_loop_queue_bounded (needed : Z) (deadline : R) (ps : list poll) :
  forall self acc self1 chunks,
    queue_bounded self ->
    poll_loop needed deadline self acc ps = Some (self1, chunks) ->
    queue_bounded self1.
Proof.
  induction ps as [|p ps IH]; intros self acc self1 chunks Hinv Hrun;
    simpl in Hrun;
    destruct (Z.of_nat (length acc) <? needed)%Z;
    try discriminate;
    try (inversion Hrun; subst; exact Hinv).
  destruct (Rlt_dec (elapsed p) deadline);
    [| inversion Hrun; subst; exact Hinv].
  destruct (deliver self (arrivals p)) as [s1|] eqn:Hd; [| discriminate].
  apply deliver_queue_bounded in Hd; [| exact Hinv].
  destruct (audio_queue s1) as [|chunk q] eqn:Hq.
  - eapply IH; eauto.
  - eapply IH; [| exact Hrun].
    unfold queue_bounded in *. simpl. rewrite Hq in Hd. simpl in Hd. lia.
Qed.

(** X6: the queue never holds more than 100 chunks.  A bounded queue stays
    bounded through every burst of deliveries and every recording, and a
    calibration ends with a bounded queue whatever it started from. *)
Theorem queue_stays_bounded (self : NoiseReducer) :
  queue_bounded self ->
  (forall chunks self',
     deliver self chunks = Some self' -> queue_bounded self') /\
  (forall duration filename during after out self',
     record self duration filename during after = Some (out, self') ->
     queue_bounded self') /\
  (forall other duration dev out self',
     calibrate_noise other duration dev = Some (out, self') ->
     queue_bounded self').
Proof.
  intros Hinv. split; [| split].
  - intros chunks self' H. eapply deliver_queue_bounded; eauto.
  - intros duration filename during after out self' H.
    unfold record in H.
    destruct (Rlt_dec duration 0); [inversion H; subst; exact Hinv |].
    destruct (deliver (record_begin filename self) during) as [s1|] eqn:Hd1;
      [| discriminate].
    destruct (deliver (set_recording false s1) after) as [s2|] eqn:Hd2;
      [| discriminate].
    apply deliver_queue_bounded in Hd1; [| exact Hinv].
    apply deliver_queue_bounded in Hd2; [| exact Hd1].
    unfold record_finish in H.
    destruct (output_frames s2); inversion H; subst; exact Hd2.
  - intros other duration dev out self' H.
    unfold calibrate_noise in H.
    assert (H0 : queue_bounded (calibrate_begin other)).
    { unfold queue_bounded. simpl. lia. }
    destruct (chunks_needed (calibrate_begin other) duration) as [needed|e];
      [| inversion H; subst; exact H0].
    destruct (poll_loop needed (duration + 0.5) (calibrate_begin other) []
                (polls dev)) as [[s1 chunks]|] eqn:Hloop; [| discriminate].
    destruct (deliver s1 (late dev)) as [s2|] eqn:Hlate; [| discriminate].
    apply poll_loop_queue_bounded in Hloop; [| exact H0].
    apply deliver_queue_bounded in Hlate; [| exact Hloop].
    unfold calibrate_finish in H.
    destruct chunks as [|c cs]; [inversion H; subst; exact Hlate |].
    destruct (Np.vstack (c :: cs)); inversion H; subst; exact Hlate.
Qed.

(** The default object, calibrating, after the device has delivered two
    chunks. *)
Lemma queue_stays_bounded_witness :
  exists self',
    deliver calibrating0 [[0.5; -0.5]; [0.5; -0.5]] = Some self' /\
    queue_bounded self'.
Proof.
  eexists. split; [reflexivity |].
  refine (proj1 (queue_stays_bounded calibrating0 _)
            [[0.5; -0.5]; [0.5; -0.5]] _ eq_refl).
  unfold queue_bounded, maxsize. simpl. lia.
Defined.

(** ** How a calibration ends *)

Lemma calibrate_begin_flags (self : NoiseReducer) :
  is_calibrating (calibrate_begin self) = true /\
  noise_profile (calibrate_begin self) = noise_profile self /\
  recording (calibrate_begin self) = recording self /\
  files (calibrate_begin self) = files self.
Proof. repeat split. Qed.

(** X7: [calibrate_noise] clears [is_calibrating] exactly when it returns.
    When an exception leaves it ([ZeroDivisionError] for a chunk size of
    zero, [ValueError] for chunks of different lengths) the flag stays set
    and the stored noise profile is the one from before the call. *)
Theorem calibrate_noise_flag (self self' : NoiseReducer) (duration : R)
    (dev : calibration) (out : outcome) :
  calibrate_noise self duration dev = Some (out, self') ->
  match out with
  | Returned => is_calibrating self' = false
  | Raised e =>
      (e = ZeroDivisionError \/ e = ValueError) /\
      is_calibrating self' = true /\
      noise_profile self' = noise_profile self
  end.
Proof.
  intros Hrun. pose proof Hrun as Hexn. revert Hrun.
  unfold calibrate_noise.
  destruct (chunks_needed (calibrate_begin self) duration) as [needed|e0].
  - destruct (poll_loop needed (duration + 0.5) (calibrate_begin self) []
                (polls dev)) as [[s1 chunks]|] eqn:Hloop; [| discriminate].
    destruct (deliver s1 (late dev)) as [s2|] eqn:Hlate; [| discriminate].
    apply poll_loop_settings in Hloop. apply deliver_settings in Hlate.
    unfold same_settings in Hloop, Hlate.
    decompose [and] Hloop. decompose [and] Hlate. simpl in *.
    unfold calibrate_finish. destruct chunks as [|c cs].
    + intros H'; inversion H'; subst. reflexivity.
    + destruct (Np.vstack (c :: cs)); intros H'; inversion H'; subst.
      * reflexivity.
      * split; [eapply calibrate_noise_raises; eauto |].
        split; congruence.
  - intros H'; inversion H'; subst.
    split; [eapply calibrate_noise_raises; eauto |].
    split; reflexivity.
Qed.

Lemma zero_chunk_size_run :
  calibrate_noise zero_chunk_size 2 silent_device
  = Some (Raised ZeroDivisionError, calibrate_begin zero_chunk_size).
Proof. reflexivity. Qed.

(** An object with a chunk size of zero. *)
Lemma calibrate_noise_flag_witness :
  is_calibrating (calibrate_begin zero_chunk_size) = true.
Proof.
  exact (proj1 (proj2 (calibrate_noise_flag zero_chunk_size
                         (calibrate_begin zero_chunk_size) 2 silent_device
                         (Raised ZeroDivisionError) zero_chunk_size_run))).
Defined.

(** ** Which chunks a calibration collects *)

Lemma deliver_queue_some (chunks : list Np.array) :
  forall self self',
    recording self = false -> is_calibrating self = true ->
    deliver self chunks = Some self' ->
    audio_queue self' = audio_queue self ++ chunks.
Proof.
  induction chunks as [|c rest IH]; intros self self' Hrec Hcal H;
    simpl in H.
  - inversion H; subst. now rewrite app_nil_r.
  - unfold callback in H. rewrite Hrec, Hcal in H. simpl in H.
    destruct (length (audio_queue self) <? maxsize)%nat; [| discriminate].
    apply IH in H; [| exact Hrec | exact Hcal].
    rewrite H. simpl. now rewrite <- app_assoc.
Qed.

Lemma poll_loop_fifo (needed : Z) (deadline : R) (ps : list poll) :
  forall self acc self1 chunks,
    recording self = false -> is_calibrating self = true ->
    poll_loop needed deadline self acc ps = Some (self1, chunks) ->
    exists k,
      (k <= length ps)%nat /\
      Forall (fun p => elapsed p < deadline) (firstn k ps) /\
      chunks ++ audio_queue self1
      = acc ++ audio_queue self ++ concat (map arrivals (firstn k ps)).
Proof.
  induction ps as [|p ps IH]; intros self acc self1 chunks Hrec Hcal Hrun;
    simpl in Hrun;
    destruct (Z.of_nat (length acc) <? needed)%Z;
    try discriminate;
    try (inversion Hrun; subst; exists 0%nat; simpl;
         rewrite app_nil_r; repeat split; [lia | constructor]).
  destruct (Rlt_dec (elapsed p) deadline) as [Hearly|_];
    [| inversion Hrun; subst; exists 0%nat; simpl;
       rewrite app_nil_r; repeat split; [lia | constructor]].
  destruct (deliver self (arrivals p)) as [s1|] eqn:Hd; [| discriminate].
  pose proof (deliver_queue_some _ _ _ Hrec Hcal Hd) as Hq.
  apply deliver_settings in Hd. unfold same_settings in Hd.
  decompose [and] Hd.
  destruct (audio_queue s1) as [|chunk q] eqn:Hq1.
  - destruct (IH s1 acc self1 chunks) as [k [Hk [Hearlier Heq]]];
      [congruence | congruence | exact Hrun |].
    exists (S k). simpl. split; [lia |]. split; [now constructor |].
    rewrite Heq, Hq1.
    rewrite (app_assoc (audio_queue self)), <- Hq. reflexivity.
  - destruct (IH (set_audio_queue q s1) (acc ++ [chunk]) self1 chunks)
      as [k [Hk [Hearlier Heq]]];
      [simpl; congruence | simpl; congruence | exact Hrun |].
    exists (S k). simpl. split; [lia |]. split; [now constructor |].
    rewrite Heq.
    rewrite (app_assoc (audio_queue self)), <- Hq.
    rewrite <- app_assoc. reflexivity.
Qed.

Lemma poll_loop_at_most (needed : Z) (deadline : R) (ps : list poll) :
  forall self acc self1 chunks,
    poll_loop needed deadline self acc ps = Some (self1, chunks) ->
    (Z.of_nat (length chunks) <= Z.max (Z.of_nat (length acc)) needed)%Z.
Proof.
  induction ps as [|p ps IH]; intros self acc self1 chunks Hrun;
    simpl in Hrun;
    destruct (Z.ltb_spec (Z.of_nat (length acc)) needed);
    try discriminate;
    try (inversion Hrun; subst; lia).
  destruct (Rlt_dec (elapsed p) deadline);
    [| inversion Hrun; subst; lia].
  destruct (deliver self (arrivals p)) as [s1|]; [| discriminate].
  destruct (audio_queue s1) as [|chunk q].
  - apply IH in Hrun. lia.
  - apply IH in Hrun. rewrite length_app in Hrun. simpl in Hrun. lia.
Qed.

(** X8: a calibration that no recording overlaps collects the chunks in the
    order of their arrival, without gap and without repetition: what it
    holds at the end of its loop is a prefix of the chunks delivered before
    some number of polls, all of them read before the deadline; whatever was
    in the queue before the call is not among them; and it never holds more
    chunks than it waits for. *)
Theorem calibration_collects_in_order (self : NoiseReducer) (duration : R)
    (dev : calibration) (chunks : list Np.array) :
  recording self = false ->
  collected self duration dev = Some chunks ->
  (exists k rest,
     (k <= length (polls dev))%nat /\
     Forall (fun p => elapsed p < duration + 0.5) (firstn k (polls dev)) /\
     chunks ++ rest = concat (map arrivals (firstn k (polls dev)))) /\
  (forall needed,
     chunks_needed self duration = Ok needed ->
     (Z.of_nat (length chunks) <= Z.max 0 needed)%Z).
Proof.
  unfold collected. intros Hrec.
  change (chunks_needed (calibrate_begin self) duration)
    with (chunks_needed self duration).
  destruct (chunks_needed self duration) as [needed|e].
  - destruct (poll_loop needed (duration + 0.5) (calibrate_begin self) []
                (polls dev)) as [[s1 cs]|] eqn:Hloop; [| discriminate].
    intros H; inversion H; subst cs. split.
    + destruct (poll_loop_fifo needed (duration + 0.5) (polls dev)
                  (calibrate_begin self) [] s1 chunks Hrec eq_refl Hloop)
        as [k [Hk [Hearly Heq]]].
      exists k, (audio_queue s1). simpl in Heq. auto.
    + intros needed' Hn. inversion Hn; subst.
      apply poll_loop_at_most in Hloop. simpl in Hloop. exact Hloop.
  - intros H; inversion H; subst. split.
    + exists 0%nat, []. simpl. repeat split; [lia | constructor].
    + discriminate.
Qed.

(** The two chunks of the steady device. *)
Lemma calibration_collects_in_order_witness :
  exists k rest,
    (k <= 2)%nat /\
    repeat [0.5; -0.5] 2 ++ rest
    = concat (map arrivals (firstn k (polls steady_device))).
Proof.
  destruct steady_device_run as [s [_ Hcol]].
  destruct (proj1 (calibration_collects_in_order reducer0 0.1 steady_device
                     (repeat [0.5; -0.5] 2) eq_refl Hcol))
    as [k [rest [Hk [_ Heq]]]].
  exists k, rest. split; [exact Hk | exact Heq].
Defined.

Lemma poll_loop_recording (needed : Z) (deadline : R) (ps : list poll) :
  forall self acc self1 chunks,
    recording self = true -> audio_queue self = [] ->
    poll_loop needed deadline self acc ps = Some (self1, chunks) ->
    chunks = acc.
Proof.
  induction ps as [|p ps IH]; intros self acc self1 chunks Hrec Hq Hrun;
    simpl in Hrun;
    destruct (Z.of_nat (length acc) <? needed)%Z;
    try discriminate;
    try (inversion Hrun; subst; reflexivity).
  destruct (Rlt_dec (elapsed p) deadline);
    [| inversion Hrun; subst; reflexivity].
  destruct (deliver_recording (arrivals p) self Hrec) as [s1 [Hd Hq1]].
  rewrite Hd in Hrun. rewrite Hq1, Hq in Hrun.
  apply deliver_settings in Hd. unfold same_settings in Hd.
  decompose [and] Hd.
  eapply IH; [| | exact Hrun]; congruence.
Qed.

(** X9: a calibration started while [recording] is set collects nothing,
    whatever the device delivers: the callback hands every chunk to the
    recording. *)
Theorem calibration_during_recording (self : NoiseReducer) (duration : R)
    (dev : calibration) (chunks : list Np.array) :
  recording self = true ->
  collected self duration dev = Some chunks ->
  chunks = [].
Proof.
  unfold collected. intros Hrec.
  destruct (chunks_needed (calibrate_begin self) duration) as [needed|e].
  - destruct (poll_loop needed (duration + 0.5) (calibrate_begin self) []
                (polls dev)) as [[s1 cs]|] eqn:Hloop; [| discriminate].
    intros H; inversion H; subst cs.
    eapply poll_loop_recording; [| | exact Hloop]; [exact Hrec | reflexivity].
  - intros H; inversion H; reflexivity.
Qed.

Lemma default_chunks_needed (self : NoiseReducer) :
  chunk_size self = 2048%Z -> sample_rate self = 44100%Z ->
  chunks_needed self 2 = Ok 43%Z.
Proof.
  intros Hcs Hsr. unfold chunks_needed. rewrite Hcs, Hsr. simpl.
  f_equal. apply trunc_eq_nonneg; lra.
Qed.

Lemma recording_single_delivery :
  collected recording0 2 single_delivery = Some [].
Proof.
  unfold collected.
  rewrite (default_chunks_needed (calibrate_begin recording0) eq_refl eq_refl).
  unfold single_delivery. run_loop.
  destruct (Rlt_dec 3 (2 + 0.5)); [exfalso; lra | reflexivity].
Qed.

(** The chunk delivered to a calibration of the recording object is not
    collected. *)
Lemma calibration_during_recording_witness :
  collected recording0 2 single_delivery = Some [] /\
  (@nil Np.array) = [].
Proof.
  split; [exact recording_single_delivery |].
  exact (calibration_during_recording recording0 2 single_delivery []
           eq_refl recording_single_delivery).
Defined.

(** ** Calibrations that are too short *)





(** ** The profile a successful calibration stores *)


Lemma vstack_ragged (r : Np.array) (rs : list Np.array) :
  Exists (fun r' => length r' <> length r) rs ->
  Np.vstack (r :: rs) = Err ValueError.
Proof.
  intros Hex. unfold Np.vstack.
  destruct (forallb (fun r' => (length r' =? length r)%nat) rs) eqn:Hall;
    [| reflexivity].
  rewrite forallb_forall in Hall. apply Exists_exists in Hex.
  destruct Hex as [r' [Hin Hne]].
  apply Hall in Hin. apply Nat.eqb_eq in Hin. contradiction.
Qed.








Lemma calibrate_noise_raised (self self' : NoiseReducer) (duration : R)
    (dev : calibration) (e : exn) :
  calibrate_noise self duration dev = Some (Raised e, self') ->
  is_calibrating self' = true /\ noise_profile self' = noise_profile self.
Proof.
  unfold calibrate_noise.
  destruct (chunks_needed (calibrate_begin self) duration) as [needed|e0].
  - destruct (poll_loop needed (duration + 0.5) (calibrate_begin self) []
                (polls dev)) as [[s1 chunks]|] eqn:Hloop; [| discriminate].
    destruct (deliver s1 (late dev)) as [s2|] eqn:Hlate; [| discriminate].
    apply poll_loop_settings in Hloop. apply deliver_settings in Hlate.
    unfold same_settings in Hloop, Hlate.
    decompose [and] Hloop. decompose [and] Hlate. simpl in *.
    unfold calibrate_finish. destruct chunks as [|c cs]; [discriminate |].
    destruct (Np.vstack (c :: cs)); intros H'; inversion H'; subst.
    split; congruence.
  - intros H'; inversion H'; subst. split; reflexivity.
Qed.

(** X12: a calibration whose collected chunks are not all of one length
    does not return: [ValueError] leaves it, the noise profile stays the one
    from before the call and [is_calibrating] stays set. *)
Theorem calibration_of_ragged_chunks (self self' : NoiseReducer)
    (duration : R) (dev : calibration) (out : outcome)
    (c : Np.array) (cs : list Np.array) :
  calibrate_noise self duration dev = Some (out, self') ->
  collected self duration dev = Some (c :: cs) ->
  Exists (fun r => length r <> length c) cs ->
  out = Raised ValueError /\
  noise_profile self' = noise_profile self /\
  is_calibrating self' = true.
Proof.
  intros Hrun Hcol Hex.
  assert (Hout : out = Raised ValueError).
  { revert Hrun Hcol. unfold calibrate_noise, collected.
    destruct (chunks_needed (calibrate_begin self) duration) as [needed|e];
      [| discriminate].
    destruct (poll_loop needed (duration + 0.5) (calibrate_begin self) []
                (polls dev)) as [[s1 chunks]|]; [| discriminate].
    destruct (deliver s1 (late dev)) as [s2|]; [| discriminate].
    intros Hrun Hcol. inversion Hcol; subst chunks.
    unfold calibrate_finish in Hrun.
    rewrite (vstack_ragged c cs Hex) in Hrun. now inversion Hrun. }
  subst out. split; [reflexivity |].
  destruct (calibrate_noise_raised self self' duration dev _ Hrun)
    as [Hcal Hprof].
  auto.
Qed.

Lemma ragged_device_run :
  exists self',
    calibrate_noise calibrated 0.1 ragged_device
    = Some (Raised ValueError, self') /\
    collected calibrated 0.1 ragged_device = Some [[0.5]; [0.5; -0.5]].
Proof.
  assert (Hn : chunks_needed (calibrate_begin calibrated) 0.1 = Ok 2%Z).
  { unfold chunks_needed; simpl. f_equal. apply trunc_eq_nonneg; lra. }
  unfold calibrate_noise, collected. rewrite Hn.
  unfold ragged_device. run_loop.
  eexists. split; reflexivity.
Qed.

(** A calibrated object meets the ragged device and keeps its profile. *)
Lemma calibration_of_ragged_chunks_witness :
  exists self',
    calibrate_noise calibrated 0.1 ragged_device
    = Some (Raised ValueError, self') /\
    noise_profile self' = Some [0.25; -0.25] /\
    is_calibrating self' = true.
Proof.
  destruct ragged_device_run as [s [Hrun Hcol]].
  exists s. split; [exact Hrun |].
  refine (proj2 (calibration_of_ragged_chunks calibrated s 0.1 ragged_device
                   (Raised ValueError) [0.5] [[0.5; -0.5]] Hrun Hcol _)).
  apply Exists_cons_hd. simpl. lia.
Defined.

(** ** What the two sessions leave alone *)

Lemma record_finish_settings (filename : string) (self : NoiseReducer) :
  let self' := snd (record_finish filename self) in
  mode self' = mode self /\ chunk_size self' = chunk_size self /\
  sample_rate self' = sample_rate self /\ channels self' = channels self /\
  noise_profile self' = noise_profile self /\
  is_calibrating self' = is_calibrating self /\
  recording self' = recording self /\
  b self' = b self /\ a self' = a self /\
  audio_queue self' = audio_queue self /\
  output_frames self' = output_frames self.
Proof.
  unfold record_finish. destruct (output_frames self) eqn:Ho; simpl;
    rewrite ?Ho; repeat split.
Qed.

Lemma record_frame (self self' : NoiseReducer) (duration : R)
    (filename : string) (during after : list Np.array) (out : outcome) :
  record self duration filename during after = Some (out, self') ->
  noise_profile self' = noise_profile self /\
  b self' = b self /\ a self' = a self /\
  is_calibrating self' = is_calibrating self /\
  mode self' = mode self /\ chunk_size self' = chunk_size self /\
  sample_rate self' = sample_rate self /\
  (files self' = files self \/
   exists wf, files self' = (filename, wf) :: files self).
Proof.
  revert duration filename during after out self'.
  intros duration filename during after out self' H.
  unfold record in H.
  destruct (Rlt_dec duration 0).
  { inversion H; subst. simpl. repeat split. now left. }
  destruct (deliver (record_begin filename self) during) as [s1|] eqn:Hd1;
    [| discriminate].
  destruct (deliver (set_recording false s1) after) as [s2|] eqn:Hd2;
    [| discriminate].
  apply deliver_settings in Hd1. apply deliver_settings in Hd2.
  unfold same_settings in Hd1, Hd2.
  decompose [and] Hd1. decompose [and] Hd2. simpl in *.
  pose proof (record_finish_settings filename s2) as Hfin.
  inversion H as [Hf]. rewrite Hf in Hfin. simpl in Hfin.
  decompose [and] Hfin.
  repeat split; try congruence.
  unfold record_finish in Hf.
  destruct (output_frames s2); inversion Hf; subst; simpl.
  + left. congruence.
  + right. eexists. f_equal. congruence.
Qed.

Lemma calibrate_noise_frame (self self' : NoiseReducer) (duration : R)
    (dev : calibration) (out : outcome) :
  calibrate_noise self duration dev = Some (out, self') ->
  b self' = b self /\ a self' = a self /\
  recording self' = recording self /\
  mode self' = mode self /\ chunk_size self' = chunk_size self /\
  sample_rate self' = sample_rate self /\
  files self' = files self.
Proof.
  revert duration dev out self'.
  intros duration dev out self' H.
  unfold calibrate_noise in H.
  destruct (chunks_needed (calibrate_begin self) duration) as [needed|e];
    [| inversion H; subst; simpl; repeat split].
  destruct (poll_loop needed (duration + 0.5) (calibrate_begin self) []
              (polls dev)) as [[s1 chunks]|] eqn:Hloop; [| discriminate].
  destruct (deliver s1 (late dev)) as [s2|] eqn:Hlate; [| discriminate].
  apply poll_loop_settings in Hloop. apply deliver_settings in Hlate.
  unfold same_settings in Hloop, Hlate.
  decompose [and] Hloop. decompose [and] Hlate. simpl in *.
  unfold calibrate_finish in H.
  destruct chunks as [|c cs].
  + inversion H; subst; simpl. repeat split; congruence.
  + destruct (Np.vstack (c :: cs)); inversion H; subst; simpl;
      repeat split; congruence.
Qed.

(** X13: a recording never changes the noise profile, the filter
    coefficients, the calibration flag or the configuration, and adds at
    most one file, under the name it was given; a calibration never changes
    the filter coefficients, the recording flag, the configuration or the
    files. *)
Theorem sessions_leave_alone (self : NoiseReducer) :
  (forall duration filename during after out self',
     record self duration filename during after = Some (out, self') ->
     noise_profile self' = noise_profile self /\
     b self' = b self /\ a self' = a self /\
     is_calibrating self' = is_calibrating self /\
     mode self' = mode self /\ chunk_size self' = chunk_size self /\
     sample_rate self' = sample_rate self /\
     (files self' = files self \/
      exists wf, files self' = (filename, wf) :: files self)) /\
  (forall duration dev out self',
     calibrate_noise self duration dev = Some (out, self') ->
     b self' = b self /\ a self' = a self /\
     recording self' = recording self /\
     mode self' = mode self /\ chunk_size self' = chunk_size self /\
     sample_rate self' = sample_rate self /\
     files self' = files self).
Proof.
  split.
  - intros duration filename during after out self' H.
    eapply record_frame; eauto.
  - intros duration dev out self' H.
    eapply calibrate_noise_frame; eauto.
Qed.

(** ** How a recording ends *)




(** ** What a recording writes *)

Lemma deliver_recording_ok (f : Np.array -> Np.array)
    (chunks : list Np.array) :
  forall self,
    recording self = true ->
    (forall c, In c chunks -> process_chunk self c = Ok (f c)) ->
    deliver self chunks
    = Some (set_output_frames (output_frames self ++ map f chunks) self).
Proof.
  induction chunks as [|c rest IH]; intros self Hrec Hok; simpl.
  - rewrite app_nil_r. now destruct self.
  - unfold callback. rewrite Hrec. simpl.
    rewrite (Hok c) by (now left).
    rewrite IH; simpl.
    + now rewrite <- app_assoc.
    + exact Hrec.
    + intros c' Hin.
      rewrite <- (Hok c') by (now right).
      now apply process_chunk_ext.
Qed.

Lemma record_run (f : Np.array -> Np.array) (self : NoiseReducer)
    (duration : R) (filename : string) (during after : list Np.array) :
  is_calibrating self = false -> 0 <= duration ->
  (forall c, In c during -> process_chunk self c = Ok (f c)) ->
  record self duration filename during after
  = Some (record_finish filename
            (set_recording false
               (set_output_frames (map f during)
                  (record_begin filename self)))).
Proof.
  intros Hcal Hpos Hok. unfold record.
  destruct (Rlt_dec duration 0); [exfalso; lra |].
  rewrite (deliver_recording_ok f during (record_begin filename self));
    [| reflexivity | exact Hok].
  rewrite deliver_idle; [reflexivity | reflexivity | exact Hcal].
Qed.



(** ** Recording silence *)







(** ** The bytes of a sample *)

Lemma tobytes_length (samples : list Z) :
  length (Np.tobytes samples) = (2 * length samples)%nat.
Proof.
  unfold Np.tobytes. induction samples as [|z zs IH]; simpl; [reflexivity |].
  rewrite IH. lia.
Qed.

(** X17: the two bytes written for a 16-bit sample are in [[0, 255]] and
    give the sample back when read low byte first as a two's complement
    number; a buffer takes two bytes per sample. *)
Theorem int16_bytes_round_trip (z : Z) :
  (-32768 <= z <= 32767)%Z ->
  exists lo hi,
    Np.int16_bytes z = [lo; hi] /\
    (0 <= lo <= 255)%Z /\ (0 <= hi <= 255)%Z /\
    int16_of_bytes lo hi = z /\
    forall samples, length (Np.tobytes samples) = (2 * length samples)%nat.
Proof.
  intros Hz. unfold Np.int16_bytes.
  exists (Z.land z 255), (Z.land (Z.shiftr z 8) 255).
  split; [reflexivity |].
  change 255%Z with (Z.ones 8).
  rewrite !Z.land_ones by lia. rewrite Z.shiftr_div_pow2 by lia.
  change (2 ^ 8)%Z with 256%Z.
  pose proof (Z.mod_pos_bound z 256 ltac:(lia)) as Hlo.
  pose proof (Z.mod_pos_bound (z / 256) 256 ltac:(lia)) as Hhi.
  pose proof (Z.div_mod z 256 ltac:(lia)) as Hz1.
  pose proof (Z.div_mod (z / 256) 256 ltac:(lia)) as Hz2.
  change (Z.ones 8) with 255%Z.
  split; [lia |]. split; [lia |]. split; [| apply tobytes_length].
  unfold int16_of_bytes.
  set (lo := (z mod 256)%Z) in *. set (hi := ((z / 256) mod 256)%Z) in *.
  set (q := (z / 256)%Z) in *. set (q2 := (q / 256)%Z) in *.
  assert (Hq : (-128 <= q <= 127)%Z) by lia.
  assert (Hq2 : (q2 = 0 \/ q2 = -1)%Z) by lia.
  cbv zeta.
  destruct (Z.ltb_spec (lo + 256 * hi) 32768); lia.
Qed.

(** The sample [-2] is written as the bytes [254, 255]. *)
Lemma int16_bytes_round_trip_witness :
  exists lo hi,
    Np.int16_bytes (-2) = [lo; hi] /\ int16_of_bytes lo hi = (-2)%Z.
Proof.
  destruct (int16_bytes_round_trip (-2)) as [lo [hi [Hb [_ [_ [Hd _]]]]]];
    [lia |].
  exists lo, hi. split; [exact Hb | exact Hd].
Defined.

(** ** A new object *)

Lemma init_ok (butter : nat -> R -> R -> result (list R * list R))
    (m : string) (cs sr : Z) (self : NoiseReducer) :
  init butter m cs sr = Ok self ->
  sr <> 0%Z /\
  butter 4%nat (300 / (IZR sr / 2)) (3400 / (IZR sr / 2))
  = Ok (b self, a self) /\
  self = mkNoiseReducer m cs sr [] [] 1 None false false (b self) (a self)
           [] [].
Proof.
  unfold init. destruct (Z.eqb_spec sr 0); [discriminate |].
  destruct (butter 4%nat _ _) as [[b0 a0]|e] eqn:Hb; cbn [bind];
    [| discriminate].
  intros H; inversion H; subst. simpl. auto.
Qed.

(** X18: the constructor raises [ZeroDivisionError] for a sample rate of
    zero and otherwise whatever the filter design raises for the band
    [300 / nyquist, 3400 / nyquist] of order 4.  The object it builds is
    idle and has no noise profile: it ignores every chunk the device
    delivers, and denoising with it filters and clips only. *)
Theorem init_builds_idle_object
    (butter : nat -> R -> R -> result (list R * list R))
    (m : string) (cs sr : Z) :
  match init butter m cs sr with
  | Err e =>
      (sr = 0%Z /\ e = ZeroDivisionError) \/
      (sr <> 0%Z /\
       butter 4%nat (300 / (IZR sr / 2)) (3400 / (IZR sr / 2)) = Err e)
  | Ok self =>
      sr <> 0%Z /\
      butter 4%nat (300 / (IZR sr / 2)) (3400 / (IZR sr / 2))
      = Ok (b self, a self) /\
      mode self = m /\ chunk_size self = cs /\ sample_rate self = sr /\
      noise_profile self = None /\
      (forall chunks, deliver self chunks = Some self) /\
      (forall chunk,
         process_chunk self chunk = Ok (filter_and_clip self chunk))
  end.
Proof.
  destruct (init butter m cs sr) as [self|e] eqn:Hinit.
  - destruct (init_ok butter m cs sr self Hinit) as [Hsr [Hb Hself]].
    split; [exact Hsr |]. split; [exact Hb |].
    rewrite Hself. simpl. repeat split.
    intros chunks. now apply deliver_idle.
  - unfold init in Hinit.
    destruct (Z.eqb_spec sr 0) as [H0|H0].
    + left. inversion Hinit. auto.
    + right. split; [exact H0 |].
      destruct (butter 4%nat _ _) as [ba|e']; cbn [bind] in Hinit;
        [discriminate | congruence].
Qed.

(** ** The program's sessions *)

Lemma calibrate_noise_returned (self self' : NoiseReducer) (duration : R)
    (dev : calibration) :
  calibrate_noise self duration dev = Some (Returned, self') ->
  is_calibrating self' = false.
Proof.
  unfold calibrate_noise.
  destruct (chunks_needed (calibrate_begin self) duration) as [needed|e];
    [| discriminate].
  destruct (poll_loop needed (duration + 0.5) (calibrate_begin self) []
              (polls dev)) as [[s1 chunks]|]; [| discriminate].
  destruct (deliver s1 (late dev)) as [s2|]; [| discriminate].
  unfold calibrate_finish. destruct chunks as [|c cs].
  - intros H; inversion H; subst. reflexivity.
  - destruct (Np.vstack (c :: cs)); intros H; inversion H; subst.
    reflexivity.
Qed.

Lemma record_returned (self self' : NoiseReducer) (duration : R)
    (filename : string) (during after : list Np.array) :
  record self duration filename during after = Some (Returned, self') ->
  0 <= duration /\ recording self' = false.
Proof.
  unfold record. destruct (Rlt_dec duration 0); [discriminate |].
  destruct (deliver (record_begin filename self) during) as [s1|];
    [| discriminate].
  destruct (deliver (set_recording false s1) after) as [s2|] eqn:Hd2;
    [| discriminate].
  apply deliver_settings in Hd2. unfold same_settings in Hd2.
  decompose [and] Hd2. simpl in *.
  unfold record_finish.
  destruct (output_frames s2); intros H'; inversion H'; subst; simpl;
    split; try lra; congruence.
Qed.

Lemma record_raised_files (self self' : NoiseReducer) (duration : R)
    (filename : string) (during after : list Np.array) (e : exn) :
  record self duration filename during after = Some (Raised e, self') ->
  files self' = files self.
Proof.
  unfold record. destruct (Rlt_dec duration 0).
  - intros H; inversion H; subst. reflexivity.
  - destruct (deliver (record_begin filename self) during) as [s1|];
      [| discriminate].
    destruct (deliver (set_recording false s1) after) as [s2|];
      [| discriminate].
    pose proof (record_finish_returns filename s2) as Hr.
    intros H; inversion H as [Hf]. rewrite Hf in Hr. discriminate.
Qed.

(** X19: [main] lets an exception out only when the constructor raised;
    every other complete run returns after [cleanup], with the default
    chunk size and sample rate and the mode the user gave.  The recording
    never overlaps the calibration: whenever a file has been written, the
    calibration had returned, the duration was a non-negative number, the
    file is the only one, under the name the user gave, and both session
    flags are clear at the end. *)
Theorem main_sessions_in_sequence
    (butter : nat -> R -> R -> result (list R * list R))
    (m : string) (duration : option R) (filename : string)
    (cal : calibration) (during after : list Np.array) (r : main_result) :
  main butter m duration filename cal during after = Some r ->
  match main_object r with
  | None =>
      main_cleaned r = false /\
      exists e,
        main_outcome r = Raised e /\ init butter m 2048 44100 = Err e
  | Some self =>
      main_outcome r = Returned /\ main_cleaned r = true /\
      chunk_size self = 2048%Z /\ sample_rate self = 44100%Z /\
      mode self = m /\
      (files self = [] \/
       exists wf d,
         files self = [(filename, wf)] /\
         duration = Some d /\ 0 <= d /\
         is_calibrating self = false /\ recording self = false)
  end.
Proof.
  unfold main.
  destruct (init butter m 2048 44100) as [nr0|e0] eqn:Hinit.
  2: { intros H; inversion H; subst. simpl.
       split; [reflexivity |]. exists e0. auto. }
  destruct (init_ok butter m 2048 44100 nr0 Hinit) as [_ [_ Hnr0]].
  assert (H0 : chunk_size nr0 = 2048%Z /\ sample_rate nr0 = 44100%Z /\
               mode nr0 = m /\ files nr0 = []).
  { rewrite Hnr0. simpl. auto. }
  destruct H0 as [Hcs0 [Hsr0 [Hm0 Hf0]]].
  destruct (calibrate_noise nr0 2 cal) as [[out1 nr1]|] eqn:Hcal;
    [| discriminate].
  destruct (calibrate_noise_frame nr0 nr1 2 cal out1 Hcal)
    as [_ [_ [_ [Hm1 [Hcs1 [Hsr1 Hf1]]]]]].
  destruct out1 as [|e1].
  2: { intros H; inversion H; subst. simpl. unfold cleanup.
       repeat split; try congruence. left. congruence. }
  pose proof (calibrate_noise_returned nr0 nr1 2 cal Hcal) as Hflag1.
  destruct duration as [d|].
  2: { intros H; inversion H; subst. simpl. unfold cleanup.
       repeat split; try congruence. left. congruence. }
  destruct (record nr1 d filename during after) as [[out2 nr2]|] eqn:Hrec;
    [| discriminate].
  destruct (record_frame nr1 nr2 d filename during after out2 Hrec)
    as [_ [_ [_ [Hcal2 [Hm2 [Hcs2 [Hsr2 Hf2]]]]]]].
  destruct out2 as [|e2].
  - destruct (record_returned nr1 nr2 d filename during after Hrec)
      as [Hd Hrec2].
    intros H; inversion H; subst. simpl. unfold cleanup.
    repeat split; try congruence.
    destruct Hf2 as [Hsame|[wf Hnew]].
    + left. congruence.
    + right. exists wf, d. repeat split; try congruence.
  - pose proof (record_raised_files nr1 nr2 d filename during after e2 Hrec)
      as Hfiles.
    intros H; inversion H; subst. simpl. unfold cleanup.
    repeat split; try congruence. left. congruence.
Qed.

Lemma pass_through_main_run :
  exists self,
    main pass_through_design "single_speaker" (Some 1) "out.wav"
      silent_device [[0.5]] []
    = Some (mkMainResult Returned (Some self) full_session_console true).
Proof.
  unfold main.
  change (init pass_through_design "single_speaker" 2048 44100)
    with (Ok reducer0).
  cbv beta iota zeta.
  rewrite (proj1 silent_device_run).
  set (nr := set_is_calibrating false
               (logger NoChunksReceived (calibrate_begin reducer0))).
  rewrite (record_run (filter_and_clip nr) nr 1 "out.wav" [[0.5]] []);
    [| reflexivity | lra | intros c _; reflexivity].
  unfold record_finish. cbn [map output_frames set_recording
                             set_output_frames].
  eexists. reflexivity.
Qed.

(** The user asks for the default mode and one second; the device is silent
    during the calibration and delivers one chunk during the recording. *)
Lemma main_sessions_in_sequence_witness :
  exists self,
    main pass_through_design "single_speaker" (Some 1) "out.wav"
      silent_device [[0.5]] []
    = Some (mkMainResult Returned (Some self) full_session_console true) /\
    chunk_size self = 2048%Z /\ sample_rate self = 44100%Z.
Proof.
  destruct pass_through_main_run as [self Hrun].
  pose proof (main_sessions_in_sequence pass_through_design
                "single_speaker" (Some 1) "out.wav" silent_device
                [[0.5]] [] _ Hrun) as H.
  simpl in H. destruct H as [_ [_ [Hcs [Hsr _]]]].
  exists self. split; [exact Hrun |]. split; [exact Hcs | exact Hsr].
Defined.

(** ** A calibration does not depend on what came before *)

Lemma callback_same_bus (s1 s2 : NoiseReducer) (in_data : Np.array) :
  same_bus s1 s2 ->
  match callback s1 in_data, callback s2 in_data with
  | Some s1', Some s2' => same_bus s1' s2'
  | None, None => True
  | _, _ => False
  end.
Proof.
  unfold same_bus, callback. intros [Hq [Hrec Hcal]].
  rewrite <- Hrec, <- Hcal, <- Hq.
  destruct (recording s1) eqn:Hr1; simpl.
  - destruct (process_chunk s1 in_data); destruct (process_chunk s2 in_data);
      simpl; repeat split; congruence.
  - destruct (is_calibrating s1) eqn:Hc1; [| repeat split; congruence].
    destruct (length (audio_queue s1) <? maxsize)%nat; simpl;
      [repeat split; congruence | exact I].
Qed.

Lemma deliver_same_bus (chunks : list Np.array) :
  forall s1 s2,
    same_bus s1 s2 ->
    match deliver s1 chunks, deliver s2 chunks with
    | Some s1', Some s2' => same_bus s1' s2'
    | None, None => True
    | _, _ => False
    end.
Proof.
  induction chunks as [|c rest IH]; intros s1 s2 Hbus; simpl.
  - exact Hbus.
  - pose proof (callback_same_bus s1 s2 c Hbus) as Hcb.
    destruct (callback s1 c) as [s1'|]; destruct (callback s2 c) as [s2'|];
      try contradiction; [apply IH; exact Hcb | exact I].
Qed.

Lemma poll_loop_same_bus (needed : Z) (deadline : R) (ps : list poll) :
  forall s1 s2 acc,
    same_bus s1 s2 ->
    match poll_loop needed deadline s1 acc ps,
          poll_loop needed deadline s2 acc ps with
    | Some (s1', c1), Some (s2', c2) => same_bus s1' s2' /\ c1 = c2
    | None, None => True
    | _, _ => False
    end.
Proof.
  induction ps as [|p ps IH]; intros s1 s2 acc Hbus; simpl;
    destruct (Z.of_nat (length acc) <? needed)%Z; auto.
  destruct (Rlt_dec (elapsed p) deadline); [| auto].
  pose proof (deliver_same_bus (arrivals p) s1 s2 Hbus) as Hd.
  destruct (deliver s1 (arrivals p)) as [s1'|];
    destruct (deliver s2 (arrivals p)) as [s2'|];
    try contradiction; [| exact I].
  destruct Hd as [Hq [Hrec Hcal]]. rewrite <- Hq.
  destruct (audio_queue s1') as [|chunk q] eqn:Hq1.
  - apply IH. unfold same_bus. repeat split; congruence.
  - apply IH. unfold same_bus. simpl. repeat split; congruence.
Qed.

(** X20: what a calibration collects, and the noise profile it stores when
    it has collected something, depend on the chunk size, the sample rate,
    the recording flag and the device only: not on the earlier noise
    profile, the earlier queue, the frames, the log or the mode. *)
Theorem calibration_ignores_history (s1 s2 : NoiseReducer) (duration : R)
    (dev : calibration) :
  chunk_size s1 = chunk_size s2 ->
  sample_rate s1 = sample_rate s2 ->
  recording s1 = recording s2 ->
  collected s1 duration dev = collected s2 duration dev /\
  forall out1 out2 s1' s2' chunks,
    calibrate_noise s1 duration dev = Some (out1, s1') ->
    calibrate_noise s2 duration dev = Some (out2, s2') ->
    collected s1 duration dev = Some chunks -> chunks <> [] ->
    out1 = out2 /\
    (out1 = Returned -> noise_profile s1' = noise_profile s2').
Proof.
  intros Hcs Hsr Hrec.
  assert (Hbus : same_bus (calibrate_begin s1) (calibrate_begin s2)).
  { unfold same_bus. simpl. auto. }
  assert (Hn : chunks_needed (calibrate_begin s1) duration
               = chunks_needed (calibrate_begin s2) duration).
  { unfold chunks_needed. simpl. now rewrite Hcs, Hsr. }
  unfold collected, calibrate_noise. rewrite <- Hn.
  destruct (chunks_needed (calibrate_begin s1) duration) as [needed|e].
  - pose proof (poll_loop_same_bus needed (duration + 0.5) (polls dev)
                  (calibrate_begin s1) (calibrate_begin s2) [] Hbus)
      as Hloop.
    destruct (poll_loop needed (duration + 0.5) (calibrate_begin s1) []
                (polls dev)) as [[a1 c1]|];
      destruct (poll_loop needed (duration + 0.5) (calibrate_begin s2) []
                  (polls dev)) as [[a2 c2]|];
      try contradiction.
    + destruct Hloop as [_ Hc]. subst c2. split; [reflexivity |].
      intros out1 out2 s1' s2' chunks Hrun1 Hrun2 Hcol Hne.
      inversion Hcol; subst c1.
      destruct (deliver a1 (late dev)) as [b1|]; [| discriminate].
      destruct (deliver a2 (late dev)) as [b2|]; [| discriminate].
      unfold calibrate_finish in Hrun1, Hrun2.
      destruct chunks as [|c cs]; [contradiction |].
      destruct (Np.vstack (c :: cs)) as [m|e];
        inversion Hrun1; inversion Hrun2; subst.
      * split; [reflexivity |]. intros _. reflexivity.
      * split; [reflexivity |]. discriminate.
    + split; [reflexivity |]. discriminate.
  - split; [reflexivity |].
    intros out1 out2 s1' s2' chunks _ _ Hcol Hne.
    inversion Hcol; subst. contradiction.
Qed.

(** The default object and the calibrated one meet the steady device and
    collect the same. *)
Lemma calibration_ignores_history_witness :
  collected reducer0 0.1 steady_device
  = collected calibrated 0.1 steady_device.
Proof.
  exact (proj1 (calibration_ignores_history reducer0 calibrated 0.1
                  steady_device eq_refl eq_refl eq_refl)).
Defined.

(** ** Recording with a profile that does not fit *)

Lemma deliver_recording_err (e : exn) (chunks : list Np.array) :
  forall self,
    recording self = true ->
    (forall c, In c chunks -> process_chunk self c = Err e) ->
    exists self',
      deliver self chunks = Some self' /\
      output_frames self' = output_frames self /\
      log self' = log self ++ map (fun _ => ErrorInCallback e) chunks.
Proof.
  induction chunks as [|c rest IH]; intros self Hrec Herr; simpl.
  - exists self. rewrite app_nil_r. auto.
  - unfold callback. rewrite Hrec. simpl.
    rewrite (Herr c) by (now left).
    destruct (IH (logger (ErrorInCallback e) self)) as [s' [Hd [Hf Hl]]].
    + exact Hrec.
    + intros c' Hin. rewrite <- (Herr c') by (now right).
      now apply process_chunk_ext.
    + exists s'. split; [exact Hd |]. split; [exact Hf |].
      rewrite Hl. simpl. now rewrite <- app_assoc.
Qed.

(** X21: a recording whose noise profile fits none of the delivered chunks
    (no accepted pair of lengths) fails without an exception: outside a
    calibration and for a non-negative duration it returns, has captured no
    frame, has written no file, and its log holds one error per chunk
    followed by the warning that no frames were captured. *)
Theorem record_with_unfit_profile (self : NoiseReducer) (duration : R)
    (filename : string) (during after : list Np.array)
    (profile : Np.array) :
  noise_profile self = Some profile ->
  is_calibrating self = false ->
  0 <= duration ->
  Forall (fun c => ~ shapes_accepted (length c) (length profile)) during ->
  exists self',
    record self duration filename during after = Some (Returned, self') /\
    output_frames self' = [] /\
    files self' = files self /\
    log self'
    = log self ++ [StartingRecording filename]
      ++ map (fun _ => ErrorInCallback ValueError) during
      ++ [NoFramesCaptured].
Proof.
  intros Hprof Hcal Hpos Hunfit. unfold record.
  destruct (Rlt_dec duration 0); [exfalso; lra |].
  destruct (deliver_recording_err ValueError during
              (record_begin filename self)) as [s1 [Hd1 [Hf1 Hl1]]].
  - reflexivity.
  - intros c Hin.
    rewrite (process_chunk_ext self (record_begin filename self))
      by reflexivity.
    apply (proj2 (process_chunk_shape_cases self c profile Hprof)).
    exact (proj1 (Forall_forall _ _) Hunfit c Hin).
  - rewrite Hd1.
    pose proof Hd1 as Hset. apply deliver_settings in Hset.
    unfold same_settings in Hset. decompose [and] Hset. simpl in *.
    rewrite deliver_idle; [| reflexivity | simpl; congruence].
    unfold record_finish. cbn [output_frames set_recording]. rewrite Hf1.
    eexists. split; [reflexivity |]. simpl.
    rewrite Hf1, Hl1. simpl. repeat split; [congruence |].
    now rewrite <- !app_assoc.
Qed.

(** A profile of two samples and a chunk of five. *)
Lemma record_with_unfit_profile_witness :
  exists self',
    record calibrated 1 "out.wav" [[0.5; 0.25; 0; 0.25; 0.5]] []
    = Some (Returned, self') /\
    output_frames self' = [] /\ files self' = [].
Proof.
  destruct (record_with_unfit_profile calibrated 1 "out.wav"
              [[0.5; 0.25; 0; 0.25; 0.5]] [] [0.25; -0.25] eq_refl eq_refl)
    as [s [Hrun [Hframes [Hfiles _]]]].
  - lra.
  - constructor; [| constructor].
    unfold shapes_accepted. simpl. lia.
  - exists s. split; [exact Hrun |]. split; [exact Hframes | exact Hfiles].
Defined.
